(** * Editon: the sandboxed runtime session orchestrator

    A shallow embedding of
      - [modules/webcontainers/hooks/useWebContainer.ts]   (module [Hook]),
      - [modules/webcontainers/components/terminal.tsx]    (modules [Term]
        for the terminal component and [Preview] for the setup component),
    followed by the properties proved about them.

    Conventions.  React state lives in records; a setter call is applied to
    the record at once (no function of the sources reads a state variable
    after it has set it, so batching is not observable).  Refs are record
    fields as well.  Every call that crosses the sandbox boundary is logged
    in a list of calls, in program order, and its result is supplied by the
    environment as a [Settled] value.  An awaited promise is assumed to
    settle, and what a rejected promise carries is never [null] nor
    [undefined].  The hook and the terminal view are stepped event by
    event, so that continuations interleave freely; one call of
    [setupContainer] is followed from its guards to its exit. *)

From Stdlib Require Import Ascii String ZArith.
From stdpp Require Import base strings list pretty.

Local Open Scope string_scope.
Set Warnings "-register-all".

(** ** JavaScript values the sources rely on *)

Module Js.

(** What a [catch] clause receives: an [Error] carrying a message, or some
    other (non-nullish) value without one. *)
Inductive Thrown : Type :=
| ErrorObj (message : string)
| NonError.

(** Outcome of a call across the sandbox boundary. *)
Inductive Settled (A : Type) : Type :=
| Resolved (v : A)
| Rejected (e : Thrown).
Arguments Resolved {A} v.
Arguments Rejected {A} e.

(** Truthiness of a string: only the empty string is falsy. *)
Definition truthy (s : string) : bool :=
  match s with
  | EmptyString => false
  | String _ _ => true
  end.

(** [err instanceof Error ? err.message : dflt] *)
Definition message_of (e : Thrown) (dflt : string) : string :=
  match e with
  | ErrorObj m => m
  | NonError => dflt
  end.

(** [err.message || dflt] *)
Definition message_or (e : Thrown) (dflt : string) : string :=
  match e with
  | ErrorObj m => if truthy m then m else dflt
  | NonError => dflt
  end.

(** [s.split("/")]: never empty, [""] for the empty string. *)
Fixpoint split_slash (s : string) : list string :=
  match s with
  | EmptyString => [EmptyString]
  | String c rest =>
      if Ascii.eqb c "/"%char then EmptyString :: split_slash rest
      else match split_slash rest with
           | [] => [String c EmptyString]
           | seg :: segs => String c seg :: segs
           end
  end.

(** [parts.join("/")] *)
Fixpoint join_slash (parts : list string) : string :=
  match parts with
  | [] => EmptyString
  | [p] => p
  | p :: ps => p +:+ "/" +:+ join_slash ps
  end.

(** [parts.slice(0, -1)] *)
Definition slice_init {A} (parts : list A) : list A := removelast parts.

(** Substring test, for statements about what a message mentions. *)
Fixpoint prefix_of (p s : string) : bool :=
  match p, s with
  | EmptyString, _ => true
  | String a p', String b s' => Ascii.eqb a b && prefix_of p' s'
  | String _ _, EmptyString => false
  end.

Fixpoint includes (s sub : string) : bool :=
  prefix_of sub s ||
  match s with
  | EmptyString => false
  | String _ s' => includes s' sub
  end.

(** JSON values, as [JSON.parse] returns them. *)
Inductive Json : Type :=
| JNull
| JBool (b : bool)
| JNum (n : Z)
| JStr (s : string)
| JArr (items : list Json)
| JObj (props : list (string * Json)).

(** The result of reading a property: a value or [undefined]. *)
Fixpoint assoc (k : string) (props : list (string * Json)) : option Json :=
  match props with
  | [] => None
  | (k', v) :: rest => if String.eqb k k' then Some v else assoc k rest
  end.

(** [v.k] for a key that is no built-in property of strings, numbers,
    booleans or arrays ("scripts", "dev").  [None] is a [TypeError]
    (property of [null]); [Some None] is [undefined]. *)
Definition get_prop (v : Json) (k : string) : option (option Json) :=
  match v with
  | JNull => None
  | JObj props => Some (assoc k props)
  | _ => Some None
  end.

Definition truthy_json (v : Json) : bool :=
  match v with
  | JNull => false
  | JBool b => b
  | JNum n => negb (Z.eqb n 0)
  | JStr s => truthy s
  | JArr _ => true
  | JObj _ => true
  end.

Definition truthy_opt (v : option Json) : bool :=
  match v with
  | None => false
  | Some j => truthy_json j
  end.

End Js.

Import Js.

(** ** useWebContainer.ts: the runtime session hook *)

Module Hook.

(** A booted sandbox is identified by a number. *)
Definition WebContainer := nat.

(** Variables local to one run of the mount effect, which the
    continuation of [initializeWebContainer], the clean-up function and
    its timer close over. *)
Record Closure : Type := mkClosure {
  mounted : bool;
  containerRef : option WebContainer;
  awaitingBoot : bool;   (* [WebContainer.boot()] is in flight *)
  timerPending : bool    (* the [setTimeout] of the clean-up has not fired *)
}.

Record State : Type := mkState {
  serverUrl : option string;
  isLoading : bool;
  error : option string;
  instance : option WebContainer;
  isReady : bool;
  isTornDown : bool;       (* ref *)
  isInitializing : bool;   (* ref *)
  closures : list Closure
}.

Definition initial : State :=
  mkState None true None None false false false [].

Inductive Call : Type :=
| Boot
| Teardown (w : WebContainer)
| SetTimeout (ms : nat)
| FsMkdir (w : WebContainer) (path : string)
| FsWriteFile (w : WebContainer) (path content : string)
| ConsoleError (msg : string).

Definition set_closures (cs : list Closure) (h : State) : State :=
  mkState (serverUrl h) (isLoading h) (error h) (instance h) (isReady h)
          (isTornDown h) (isInitializing h) cs.

Definition set_isInitializing (b : bool) (h : State) : State :=
  mkState (serverUrl h) (isLoading h) (error h) (instance h) (isReady h)
          (isTornDown h) b (closures h).

Definition set_isTornDown (b : bool) (h : State) : State :=
  mkState (serverUrl h) (isLoading h) (error h) (instance h) (isReady h)
          b (isInitializing h) (closures h).

(** [setInstance(w); setIsReady(true); setIsLoading(false)] *)
Definition publish (w : WebContainer) (h : State) : State :=
  mkState (serverUrl h) false (error h) (Some w) true
          (isTornDown h) (isInitializing h) (closures h).

(** [setError(msg); setIsLoading(false)] *)
Definition fail_boot (msg : string) (h : State) : State :=
  mkState (serverUrl h) false (Some msg) (instance h) (isReady h)
          (isTornDown h) (isInitializing h) (closures h).

(** [setInstance(null); setServerUrl(null); setIsReady(false)] *)
Definition unpublish (h : State) : State :=
  mkState None (isLoading h) (error h) None false
          (isTornDown h) (isInitializing h) (closures h).

(** A [teardown()] inside [try { ... } catch (e) { console.error(tag, e) }];
    [td] is how the call goes. *)
Definition guarded_teardown (w : WebContainer) (td : Settled unit) (tag : string)
  : list Call :=
  match td with
  | Resolved _ => [Teardown w]
  | Rejected _ => [Teardown w; ConsoleError tag]
  end.

(** [initializeWebContainer] up to its [await]; [None] when its guard
    returns. *)
Definition initializeWebContainer (h : State) : option (State * list Call) :=
  if isInitializing h || isTornDown h then None
  else Some (set_isInitializing true h, [Boot]).

(** The effect body: fresh [mounted] and [containerRef], then
    [initializeWebContainer()]. *)
Definition effect (h : State) : State * list Call :=
  match initializeWebContainer h with
  | None => (set_closures (closures h ++ [mkClosure true None false false]) h, [])
  | Some (h', cs) =>
      (set_closures (closures h' ++ [mkClosure true None true false]) h', cs)
  end.

(** The rest of [initializeWebContainer] in closure [i], once
    [WebContainer.boot()] has settled with [r]. *)
Definition bootSettled (i : nat) (r : Settled WebContainer) (td : Settled unit)
           (h : State) : option (State * list Call) :=
  match closures h !! i with
  | Some c =>
      if awaitingBoot c then
        let c' := mkClosure (mounted c) (containerRef c) false (timerPending c) in
        match r with
        | Resolved w =>
            if negb (mounted c) || isTornDown h then
              Some (set_isInitializing false (set_closures (<[i := c']> (closures h)) h),
                    guarded_teardown w td "Error during immediate teardown:")
            else
              let c'' := mkClosure (mounted c) (Some w) false (timerPending c) in
              Some (set_isInitializing false
                      (set_closures (<[i := c'']> (closures h)) (publish w h)),
                    [])
        | Rejected e =>
            let h1 := set_closures (<[i := c']> (closures h)) h in
            let h2 := if mounted c
                      then fail_boot (message_of e "Failed to initialize WebContainer") h1
                      else h1 in
            Some (set_isInitializing false h2,
                  [ConsoleError "Failed to initialize WebContainer:"])
        end
      else None
  | None => None
  end.

(** The clean-up function returned by the effect, for closure [i]. *)
Definition cleanup (i : nat) (h : State) : option (State * list Call) :=
  match closures h !! i with
  | Some c =>
      match containerRef c with
      | Some _ =>
          if negb (isTornDown h) then
            let c' := mkClosure false (containerRef c) (awaitingBoot c) true in
            Some (set_isTornDown true (set_closures (<[i := c']> (closures h)) h),
                  [SetTimeout 100])
          else
            let c' := mkClosure false (containerRef c) (awaitingBoot c) (timerPending c) in
            Some (set_closures (<[i := c']> (closures h)) h, [])
      | None =>
          let c' := mkClosure false (containerRef c) (awaitingBoot c) (timerPending c) in
          Some (set_closures (<[i := c']> (closures h)) h, [])
      end
  | None => None
  end.

(** The timer callback of the clean-up: [containerRef?.teardown()]. *)
Definition timerFired (i : nat) (td : Settled unit) (h : State)
  : option (State * list Call) :=
  match closures h !! i with
  | Some c =>
      if timerPending c then
        let c' := mkClosure (mounted c) (containerRef c) (awaitingBoot c) false in
        Some (set_closures (<[i := c']> (closures h)) h,
              match containerRef c with
              | Some w => guarded_teardown w td "Error during cleanup teardown:"
              | None => []
              end)
      else None
  | None => None
  end.

(** [destroy] *)
Definition destroy (td : Settled unit) (h : State) : State * list Call :=
  match instance h with
  | Some w =>
      if negb (isTornDown h) then
        (unpublish (set_isTornDown true h),
         guarded_teardown w td "Error during manual teardown:")
      else (h, [])
  | None => (h, [])
  end.

(** [writeFileSync]: the promise it returns and the calls it makes.
    [mk] and [wr] are how [fs.mkdir] and [fs.writeFile] go. *)
Definition folderPath (path : string) : string :=
  join_slash (slice_init (split_slash path)).

Definition rethrow (path : string) (e : Thrown) : Settled unit * list Call :=
  (Rejected (ErrorObj ("Failed to write file at " +:+ path +:+ ": "
                       +:+ message_of e "Failed to write file")),
   [ConsoleError ("Failed to write file at " +:+ path +:+ ":")]).

Definition writeFileSync (mk wr : Settled unit) (path content : string) (h : State)
  : Settled unit * list Call :=
  match instance h with
  | Some w =>
      if isTornDown h then
        (Rejected (ErrorObj "WebContainer instance is not available"), [])
      else
        let write_it :=
          match wr with
          | Resolved _ => (Resolved tt, [FsWriteFile w path content])
          | Rejected e =>
              let '(r, cs) := rethrow path e in (r, FsWriteFile w path content :: cs)
          end in
        if truthy (folderPath path) then
          match mk with
          | Resolved _ =>
              let '(r, cs) := write_it in (r, FsMkdir w (folderPath path) :: cs)
          | Rejected e =>
              let '(r, cs) := rethrow path e in (r, FsMkdir w (folderPath path) :: cs)
          end
        else write_it
  | None => (Rejected (ErrorObj "WebContainer instance is not available"), [])
  end.

(** The two ways a consumer lets go of the session: unmounting (the
    clean-up of closure [i]) and calling [destroy]. *)
Inductive Release : Type :=
| ByUnmount (i : nat)
| ByDestroy (td : Settled unit).

Definition release (r : Release) (h : State) : option (State * list Call) :=
  match r with
  | ByUnmount i => cleanup i h
  | ByDestroy td => Some (destroy td h)
  end.

Definition is_teardown (c : Call) : bool :=
  match c with Teardown _ => true | _ => false end.

Definition is_timeout (c : Call) : bool :=
  match c with SetTimeout _ => true | _ => false end.

Definition unavailable : Settled unit :=
  Rejected (ErrorObj "WebContainer instance is not available").

(** The message of a rejection, if it carries one. *)
Definition rejection_message {A} (r : Settled A) : option string :=
  match r with
  | Rejected (ErrorObj m) => Some m
  | _ => None
  end.

(** Everything that can happen to the hook. *)
Inductive Event : Type :=
| EvEffect
| EvBootSettled (i : nat) (r : Settled WebContainer) (td : Settled unit)
| EvCleanup (i : nat)
| EvTimerFired (i : nat) (td : Settled unit)
| EvDestroy (td : Settled unit).

Definition step (ev : Event) (h : State) : option (State * list Call) :=
  match ev with
  | EvEffect => Some (effect h)
  | EvBootSettled i r td => bootSettled i r td h
  | EvCleanup i => cleanup i h
  | EvTimerFired i td => timerFired i td h
  | EvDestroy td => Some (destroy td h)
  end.

(** Running a sequence of events; an event that cannot happen in the
    current state is skipped. *)
Fixpoint run (evs : list Event) (h : State) : State * list Call :=
  match evs with
  | [] => (h, [])
  | ev :: rest =>
      match step ev h with
      | Some (h', cs) => let '(h'', cs') := run rest h' in (h'', (cs ++ cs')%list)
      | None => run rest h
      end
  end.

(** *** Reading a state or a log of calls *)

Fixpoint count {A} (kind : A → bool) (l : list A) : nat :=
  match l with
  | [] => 0
  | x :: rest => (if kind x then 1 else 0) + count kind rest
  end.

Definition is_boot (c : Call) : bool :=
  match c with Boot => true | _ => false end.

Definition is_mkdir (c : Call) : bool :=
  match c with FsMkdir _ _ => true | _ => false end.

(** The [console.error] of a boot that failed. *)
Definition is_boot_failure (c : Call) : bool :=
  match c with
  | ConsoleError msg => String.eqb msg "Failed to initialize WebContainer:"
  | _ => false
  end.

Definition is_effect (ev : Event) : bool :=
  match ev with EvEffect => true | _ => false end.

(** How many closures wait for [WebContainer.boot()]. *)
Definition boots_in_flight (h : State) : nat := count awaitingBoot (closures h).

(** With the effect run once: whether a sandbox is still to come or to
    go, through a boot in flight, a clean-up timer not yet fired, or a
    published instance not yet let go of. *)
Definition owed (h : State) : nat :=
  match closures h with
  | [c] =>
      if awaitingBoot c || timerPending c
         || (negb (isTornDown h) && match instance h with Some _ => true | None => false end)
      then 1 else 0
  | _ => 0
  end.

(** The books of a hook whose effect ran once, after [torn] calls of
    [teardown] and [failed] failed boots: together with what is owed they
    add up to the one boot that was started. *)
Definition accounted (h : State) (torn failed : nat) : Prop :=
  ∃ c, closures h = [c]
       ∧ torn + owed h + failed = 1
       ∧ (timerPending c = true →
          isTornDown h = true ∧ awaitingBoot c = false ∧ is_Some (containerRef c))
       ∧ (awaitingBoot c = true →
          instance h = None ∧ containerRef c = None ∧ isTornDown h = false)
       ∧ (isTornDown h = false → instance h = containerRef c)
       ∧ (failed = 0 ∨ isTornDown h = false).

(** The values handed to the caller are consistent. *)
Definition hook_view_ok (h : State) : Prop :=
  serverUrl h = None
  ∧ (isReady h = true ↔ is_Some (instance h))
  ∧ (is_Some (instance h) ∨ is_Some (error h) → isLoading h = false).

(** Whether a string holds a slash. *)
Fixpoint has_slash (s : string) : bool :=
  match s with
  | EmptyString => false
  | String c rest => Ascii.eqb c "/"%char || has_slash rest
  end.

End Hook.

(** ** terminal.tsx, first component: the terminal view and its shell *)

Module Term.

(** An xterm surface and a spawned shell are identified by numbers. *)
Definition Xterm := nat.
Definition Process := nat.

Record Size : Type := mkSize { cols : Z; rows : Z }.

Record State : Type := mkState {
  term : option Xterm;               (* [term.current] *)
  fitAddon : option Xterm;           (* [fitAddon.current], by its terminal *)
  searchAddon : option Xterm;        (* [searchAddon.current], by its terminal *)
  shellProcessRef : option Process;  (* [shellProcessRef.current] *)
  isShellStarting : bool;            (* ref *)
  initTimers : list Xterm;           (* pending [setTimeout(startShell, 300)] *)
  spawning : list Xterm;             (* [startShell] waiting for [spawn] *)
  listeners : list (Xterm * Process);   (* live [onData]/[onResize] listeners *)
  exitHandlers : list (Xterm * Process) (* [shellProcess.exit.then] not yet run *)
}.

Definition initial : State := mkState None None None None false [] [] [] [].

Inductive Call : Type :=
| XOpen (t : Xterm)
| XWrite (t : Xterm) (data : string)
| XClear (t : Xterm)
| XFocus (t : Xterm)
| XFit (t : Xterm)
| XDispose (t : Xterm)
| SpawnShell (c r : Z)
| ProcResize (p : Process) (c r : Z)
| ProcWrite (p : Process) (data : string)
| ProcKill (p : Process)
| ConsoleError (msg : string).

Definition esc : string := String (ascii_of_nat 27) EmptyString.
Definition crlf : string := String (ascii_of_nat 13) (String (ascii_of_nat 10) EmptyString).

(** *** The imperative handle *)

(** [term.current?.write(data)] *)
Definition writeToTerminal (data : string) (st : State) : list Call :=
  match term st with
  | Some t => [XWrite t data]
  | None => []
  end.

(** [term.current?.clear()] *)
Definition clearTerminal (st : State) : list Call :=
  match term st with
  | Some t => [XClear t]
  | None => []
  end.

(** [term.current?.focus()] *)
Definition focusTerminal (st : State) : list Call :=
  match term st with
  | Some t => [XFocus t]
  | None => []
  end.

(** *** The main effect *)

(** The effect body for a fresh surface [t]; [wc] tells whether
    [webContainerInstance] is set and [dom] whether the container element
    is.  [None]: the guard returned, nothing was set up. *)
Definition init (wc dom : bool) (t : Xterm) (st : State) : option (State * list Call) :=
  match term st with
  | Some _ => None
  | None =>
      if negb wc || negb dom then None
      else Some (mkState (Some t) (Some t) (Some t) (shellProcessRef st)
                         (isShellStarting st) (initTimers st ++ [t]) (spawning st)
                         (listeners st) (exitHandlers st),
                 [XOpen t])
  end.

Definition remove_xterm (t : Xterm) (l : list Xterm) : list Xterm :=
  filter (fun t' => t' ≠ t) l.

Definition on_other_xterm (t : Xterm) (l : list (Xterm * Process)) : list (Xterm * Process) :=
  filter (fun tp => tp.1 ≠ t) l.

Definition remove_pair (t : Xterm) (p : Process) (l : list (Xterm * Process))
  : list (Xterm * Process) :=
  filter (fun tp => tp ≠ (t, p)) l.

(** [terminal.cols && terminal.cols > 0 ? terminal.cols : dflt]; [None] is
    [NaN]. *)
Definition safe_dim (measured : option Z) (dflt : Z) : Z :=
  match measured with
  | Some n => if (0 <? n)%Z then n else dflt
  | None => dflt
  end.

(** [startShell] of the closure of surface [t], from the timer up to the
    [await] of [spawn]; [mc] and [mr] are [terminal.cols] and
    [terminal.rows] after the fit. *)
Definition startShell (t : Xterm) (mc mr : option Z) (st : State)
  : option (State * list Call) :=
  if bool_decide (t ∈ initTimers st) then
    if isShellStarting st then
      Some (mkState (term st) (fitAddon st) (searchAddon st) (shellProcessRef st)
                    (isShellStarting st) (remove_xterm t (initTimers st)) (spawning st)
                    (listeners st) (exitHandlers st),
            [])
    else
      Some (mkState (term st) (fitAddon st) (searchAddon st) (shellProcessRef st)
                    true (remove_xterm t (initTimers st)) (spawning st ++ [t])
                    (listeners st) (exitHandlers st),
            [XFit t;
             XWrite t (esc +:+ "[32m$ Starting shell..." +:+ esc +:+ "[0m" +:+ crlf);
             SpawnShell (safe_dim mc 80) (safe_dim mr 24)])
  else None.

(** The [catch] and [finally] of [startShell]. *)
Definition spawn_failed (t : Xterm) (msg : string) (st : State) : State * list Call :=
  (mkState (term st) (fitAddon st) (searchAddon st) (shellProcessRef st)
           false (initTimers st) (remove_xterm t (spawning st))
           (listeners st) (exitHandlers st),
   ConsoleError "Shell spawn error:" ::
   match term st with
   | Some _ =>
       [XWrite t (crlf +:+ esc +:+ "[31mError starting shell: " +:+ msg +:+ esc +:+ "[0m" +:+ crlf);
        XWrite t (crlf +:+ esc +:+ "[33mPlease make sure WebContainer is fully initialized."
                  +:+ esc +:+ "[0m" +:+ crlf)]
   | None => []
   end).

(** The rest of [startShell] once [spawn] has settled; a resolved [None]
    is a null process.  [String(e)] of a value that is no [Error] is left
    as a fixed text. *)
Definition spawnSettled (t : Xterm) (r : Settled (option Process)) (st : State)
  : option (State * list Call) :=
  if bool_decide (t ∈ spawning st) then
    match r with
    | Resolved (Some p) =>
        Some (mkState (term st) (fitAddon st) (searchAddon st) (Some p)
                      false (initTimers st) (remove_xterm t (spawning st))
                      (listeners st ++ [(t, p)]) (exitHandlers st ++ [(t, p)]),
              [])
    | Resolved None => Some (spawn_failed t "Shell process is null" st)
    | Rejected e =>
        Some (spawn_failed t ("Failed to spawn shell: " +:+ message_of e "[object]") st)
    end
  else None.

(** The [onResize] listener of the closure that spawned [p]; [rs] is how
    [shellProcess.resize] goes. *)
Definition onResize (p : Process) (rs : Settled unit) (size : Size) (st : State)
  : list Call :=
  if (0 <? cols size)%Z && (0 <? rows size)%Z && bool_decide (is_Some (shellProcessRef st))
  then match rs with
       | Resolved _ => [ProcResize p (cols size) (rows size)]
       | Rejected _ => [ProcResize p (cols size) (rows size); ConsoleError "Resize error:"]
       end
  else [].

(** The [onData] listener: [input.write(data)]. *)
Definition onData (p : Process) (wr : Settled unit) (data : string) : list Call :=
  match wr with
  | Resolved _ => [ProcWrite p data]
  | Rejected _ => [ProcWrite p data; ConsoleError "Input write error:"]
  end.

(** A resize event of surface [t] reaches every live listener on it. *)
Definition resizeEvent (t : Xterm) (rs : Settled unit) (size : Size) (st : State)
  : list Call :=
  flat_map (fun tp => onResize tp.2 rs size st)
           (filter (fun tp => tp.1 = t) (listeners st)).

(** The [shellProcess.exit.then] callback of the closure [(t, p)]. *)
Definition processExited (t : Xterm) (p : Process) (code : Z) (st : State)
  : option (State * list Call) :=
  if bool_decide ((t, p) ∈ exitHandlers st) then
    Some (mkState (term st) (fitAddon st) (searchAddon st) None
                  (isShellStarting st) (initTimers st) (spawning st)
                  (remove_pair t p (listeners st)) (remove_pair t p (exitHandlers st)),
          match term st with
          | Some _ =>
              [XWrite t (crlf +:+ esc +:+ "[33mShell exited with code " +:+ pretty code
                         +:+ esc +:+ "[0m" +:+ crlf)]
          | None => []
          end)
  else None.

(** The clean-up function of the effect that created surface [t]; [kl] is
    how [kill] goes. *)
Definition cleanup (t : Xterm) (kl : Settled unit) (st : State) : State * list Call :=
  (mkState None None None None false
           (remove_xterm t (initTimers st)) (spawning st)
           (on_other_xterm t (listeners st)) (exitHandlers st),
   (match shellProcessRef st with
    | Some p =>
        match kl with
        | Resolved _ => [ProcKill p]
        | Rejected _ => [ProcKill p; ConsoleError "Error killing shell process:"]
        end
    | None => []
    end ++ [XDispose t])%list).

Inductive Event : Type :=
| EvInit (wc dom : bool) (t : Xterm)
| EvStartShell (t : Xterm) (mc mr : option Z)
| EvSpawnSettled (t : Xterm) (r : Settled (option Process))
| EvProcessExited (t : Xterm) (p : Process) (code : Z)
| EvCleanup (t : Xterm) (kl : Settled unit).

Definition step (ev : Event) (st : State) : option (State * list Call) :=
  match ev with
  | EvInit wc dom t => init wc dom t st
  | EvStartShell t mc mr => startShell t mc mr st
  | EvSpawnSettled t r => spawnSettled t r st
  | EvProcessExited t p code => processExited t p code st
  | EvCleanup t kl =>
      (* the clean-up of the effect that installed [t] as [term.current] *)
      if bool_decide (term st = Some t) then Some (cleanup t kl st) else None
  end.

(** An effect run that gets past its guard and installs a surface. *)
Definition initialises (ev : Event) : bool :=
  match ev with
  | EvInit wc dom _ => wc && dom
  | _ => false
  end.

(** The states in which the view has no surface: the surface was never
    initialised, or it was disposed by the clean-up and not initialised
    again since. *)
Inductive NoSurface : State → Prop :=
| NeverInitialised : NoSurface initial
| Disposed t kl st : NoSurface (cleanup t kl st).1
| StillNone ev st st' cs :
    NoSurface st → initialises ev = false → step ev st = Some (st', cs) → NoSurface st'.

Definition is_resize (c : Call) : bool :=
  match c with ProcResize _ _ _ => true | _ => false end.

(** Running a sequence of events; an event that cannot happen in the
    current state is skipped. *)
Fixpoint run (evs : list Event) (st : State) : State :=
  match evs with
  | [] => st
  | ev :: rest =>
      match step ev st with
      | Some (st', _) => run rest st'
      | None => run rest st
      end
  end.

(** The calls made along a sequence of events. *)
Fixpoint trace (evs : list Event) (st : State) : list Call :=
  match evs with
  | [] => []
  | ev :: rest =>
      match step ev st with
      | Some (st', cs) => cs ++ trace rest st'
      | None => trace rest st
      end
  end.

Definition is_open (c : Call) : bool :=
  match c with XOpen _ => true | _ => false end.

Definition is_dispose (c : Call) : bool :=
  match c with XDispose _ => true | _ => false end.

Definition is_spawn (c : Call) : bool :=
  match c with SpawnShell _ _ => true | _ => false end.

(** 1 while [term.current] is set. *)
Definition surfaces (st : State) : nat :=
  match term st with Some _ => 1 | None => 0 end.

End Term.

(** ** terminal.tsx, second component: the preview and its setup run *)

Module Preview.

Record State : Type := mkState {
  previewUrl : string;
  currentStep : nat;
  internalError : option string;
  isSetupComplete : bool;
  isSetupInProgress : bool
}.

Definition initial : State := mkState "" 0 None false false.

(** How the sandbox answers the calls of one setup run, call site by call
    site. *)
Record Sandbox : Type := mkSandbox {
  readFile_detect : Settled string;      (* [fs.readFile("package.json")], detection *)
  mount : Settled unit;
  rm_lock : Settled unit;                (* [fs.rm('package-lock.json')] *)
  spawn_install : Settled Term.Process;
  install_exit : Settled Z;              (* [installProcess.exit] *)
  readFile_start : Settled string;       (* [fs.readFile("package.json")], start stage *)
  spawn_start : Settled Term.Process
}.

Inductive Listener : Type := OnReconnect | OnStart.

(** Where a run left [setupContainer]. *)
Inductive Path : Type :=
| NotStarted      (* one of the two guards returned *)
| Reconnected
| SoftFailed
| Started
| Fatal.

(** How a piece of an [async] function body completes: normally, by a
    [return] (tagged with the place), or by a [throw]. *)
Inductive Completion (A : Type) : Type :=
| Normal (a : A)
| Return (l : Path)
| Throw (e : Thrown).
Arguments Normal {A} a.
Arguments Return {A} l.
Arguments Throw {A} e.

Section Setup.

(** [transformToWebContainerFormat] (hooks/transformer) and [JSON.parse]
    are taken as given; [JSON_parse] answers [None] for a
    [SyntaxError]. *)
Context {TemplateFolder FileSystemTree : Type}.
Variable transformToWebContainerFormat : TemplateFolder → FileSystemTree.
Variable JSON_parse : string → option Json.

Record Props : Type := mkProps {
  templateData : TemplateFolder;
  instance : option Hook.WebContainer;
  parentLoading : bool;
  forceResetup : bool;
  terminalRef : option Term.State   (* [terminalRef.current], the view's handle *)
}.

Inductive Call : Type :=
| FsReadFile (path enc : string)
| Mount (files : FileSystemTree)
| FsRm (path : string)
| Spawn (cmd : string) (args : list string)
| PipeOutput (p : Term.Process)
| OnServerReady (l : Listener)
| TermCall (c : Term.Call)
| ConsoleError (msg : string).

(** *** A monad for the body of an [async] function: React state and
    the log of calls are threaded through it. *)

Record Store : Type := mkStore { ui : State; log : list Call }.

Definition M (A : Type) : Type := Store → Completion A * Store.

#[local] Instance M_ret : MRet M := fun A (a : A) σ => (Normal a, σ).

#[local] Instance M_bind : MBind M := fun A B (k : A → M B) (m : M A) σ =>
  match m σ with
  | (Normal a, σ') => k a σ'
  | (Return l, σ') => (Return l, σ')
  | (Throw e, σ') => (Throw e, σ')
  end.

Definition return_ {A} (l : Path) : M A := fun σ => (Return l, σ).

Definition throw {A} (e : Thrown) : M A := fun σ => (Throw e, σ).

(** [try { m } catch (e) { h e }] *)
Definition try_ {A} (m : M A) (h : Thrown → M A) : M A :=
  fun σ =>
    match m σ with
    | (Throw e, σ') => h e σ'
    | other => other
    end.

Definition emit (c : Call) : M unit :=
  fun σ => (Normal tt, mkStore (ui σ) (log σ ++ [c])).

Definition emits (cs : list Call) : M unit :=
  fun σ => (Normal tt, mkStore (ui σ) (log σ ++ cs)).

Definition modify (f : State → State) : M unit :=
  fun σ => (Normal tt, mkStore (f (ui σ)) (log σ)).

(** [await call]: the call is logged, its settled result decides. *)
Definition await {A} (c : Call) (r : Settled A) : M A :=
  fun σ =>
    match r with
    | Resolved v => (Normal v, mkStore (ui σ) (log σ ++ [c]))
    | Rejected e => (Throw e, mkStore (ui σ) (log σ ++ [c]))
    end.

(** [await promise] for a promise already at hand. *)
Definition settle {A} (r : Settled A) : M A :=
  fun σ =>
    match r with
    | Resolved v => (Normal v, σ)
    | Rejected e => (Throw e, σ)
    end.

(** *** Setters *)

Definition setPreviewUrl (u : string) : M unit :=
  modify (fun s => mkState u (currentStep s) (internalError s)
                           (isSetupComplete s) (isSetupInProgress s)).
Definition setCurrentStep (n : nat) : M unit :=
  modify (fun s => mkState (previewUrl s) n (internalError s)
                           (isSetupComplete s) (isSetupInProgress s)).
Definition setInternalError (e : option string) : M unit :=
  modify (fun s => mkState (previewUrl s) (currentStep s) e
                           (isSetupComplete s) (isSetupInProgress s)).
Definition setIsSetupComplete (b : bool) : M unit :=
  modify (fun s => mkState (previewUrl s) (currentStep s) (internalError s)
                           b (isSetupInProgress s)).
Definition setIsSetupInProgress (b : bool) : M unit :=
  modify (fun s => mkState (previewUrl s) (currentStep s) (internalError s)
                           (isSetupComplete s) b).

(** The first effect: reset when [forceResetup] is set. *)
Definition resetEffect (force : bool) (s : State) : State :=
  if force then mkState "" 0 None false false else s.

(** What one call of [setupContainer] leaves behind. *)
Record Outcome : Type := mkOutcome {
  final : State;
  calls : list Call;
  path : Path;
  rejected : bool   (* the promise of [setupContainer] rejected *)
}.

(** *** Reading an outcome *)

Definition is_mount (c : Call) : bool :=
  match c with Mount _ => true | _ => false end.

(** [spawn("npm", [sub, ...])] *)
Definition is_npm (sub : string) (c : Call) : bool :=
  match c with
  | Spawn cmd (a :: _) => String.eqb cmd "npm" && String.eqb a sub
  | _ => false
  end.

Definition is_listen (c : Call) : bool :=
  match c with OnServerReady _ => true | _ => false end.

(** A call that reaches the terminal other than a write to its surface. *)
Definition harms_terminal (c : Call) : bool :=
  match c with
  | TermCall (Term.XWrite _ _) => false
  | TermCall _ => true
  | _ => false
  end.

(** Whether the run made a call of the given kind. *)
Definition made (kind : Call → bool) (out : Outcome) : bool :=
  existsb kind (calls out).


(** *** What the run tells the user *)

Definition msg_reconnecting : string :=
  "🔄 Files detected. Reconnecting session..." +:+ Term.crlf.
Definition msg_preparing : string := "📦 Preparing file system..." +:+ Term.crlf.
Definition msg_mounted : string := "✅ File system mounted." +:+ Term.crlf.
Definition msg_installing : string :=
  "📥 Installing dependencies... (this may take a moment)" +:+ Term.crlf.
Definition msg_lock_removed : string :=
  "   (removed existing package-lock.json to ensure compatibility)" +:+ Term.crlf.
Definition installFailedMsg (code : Z) : string :=
  "❌ npm install failed with code " +:+ pretty code +:+ ". See terminal for details.".
Definition msg_manual : string :=
  "⚠️ You can try running 'npm install' manually in this terminal." +:+ Term.crlf.
Definition msg_installed : string := "✅ Dependencies installed." +:+ Term.crlf.
Definition msg_no_scripts : string :=
  "⚠️ Could not read package.json scripts, defaulting to 'npm start'" +:+ Term.crlf.
Definition msg_starting (startCommand : string) : string :=
  "🚀 Starting server with 'npm run " +:+ startCommand +:+ "'..." +:+ Term.crlf.
Definition msg_fatal (msg : string) : string :=
  Term.crlf +:+ "❌ Fatal Error: " +:+ msg +:+ Term.crlf.

Section Run.

Variable props : Props.
Variable sb : Sandbox.

(** [terminalRef.current?.writeToTerminal(data)] *)
Definition write (data : string) : M unit :=
  match terminalRef props with
  | Some view => emits (TermCall <$> Term.writeToTerminal data view)
  | None => mret tt
  end.

(** The [server-ready] callbacks. *)
Definition serverReady (l : Listener) (url : string) : M unit :=
  match l with
  | OnReconnect => write ("🌐 Server ready at " +:+ url +:+ Term.crlf)
  | OnStart => write ("✨ Server ready: " +:+ url +:+ Term.crlf)
  end ;;
  setPreviewUrl url.

(** CHECK RECONNECT *)
Definition checkReconnect : M bool :=
  try_ (packageJsonExists ← await (FsReadFile "package.json" "utf8") (readFile_detect sb) ;
        if truthy packageJsonExists && negb (forceResetup props) then
          write msg_reconnecting ;;
          mret true
        else mret false)
       (fun _ => mret false).

(** Smart detect start command *)
Definition pickScript (pkg : Json) : M string :=
  match get_prop pkg "scripts" with
  | None => throw (ErrorObj "Cannot read properties of null (reading 'scripts')")
  | Some None => mret "start"
  | Some (Some scripts) =>
      if truthy_json scripts then
        match get_prop scripts "dev" with
        | None => throw (ErrorObj "Cannot read properties of null (reading 'dev')")
        | Some dev => if truthy_opt dev then mret "dev" else mret "start"
        end
      else mret "start"
  end.

Definition detectStartCommand : M string :=
  try_ (pkgRaw ← await (FsReadFile "package.json" "utf8") (readFile_start sb) ;
        match JSON_parse pkgRaw with
        | Some pkg => pickScript pkg
        | None => throw (ErrorObj "Unexpected token in JSON")
        end)
       (fun _ => write msg_no_scripts ;; mret "start").

(** The [try] block of [setupContainer]. *)
Definition setupBody : M unit :=
  isReconnecting ← checkReconnect ;
  if isReconnecting : bool then
    emit (OnServerReady OnReconnect) ;;
    setIsSetupComplete true ;;
    setIsSetupInProgress false ;;
    return_ Reconnected
  else
    (* STEP 1: PREPARE FILES *)
    setCurrentStep 1 ;;
    write msg_preparing ;;
    let files := transformToWebContainerFormat (templateData props) in
    (* STEP 2: MOUNT *)
    setCurrentStep 2 ;;
    await (Mount files) (mount sb) ;;
    write msg_mounted ;;
    (* STEP 3: INSTALL *)
    setCurrentStep 3 ;;
    write msg_installing ;;
    try_ (await (FsRm "package-lock.json") (rm_lock sb) ;;
          write msg_lock_removed)
         (fun _ => mret tt) ;;
    installProcess ← await (Spawn "npm" ["install"; "--no-optional"; "--legacy-peer-deps"])
                           (spawn_install sb) ;
    emit (PipeOutput installProcess) ;;
    installExitCode ← settle (install_exit sb) ;
    if negb (Z.eqb installExitCode 0) then
      (* SOFT FAIL *)
      let msg := installFailedMsg installExitCode in
      write (Term.crlf +:+ msg +:+ Term.crlf) ;;
      write msg_manual ;;
      setInternalError (Some msg) ;;
      setIsSetupComplete true ;;
      setIsSetupInProgress false ;;
      return_ SoftFailed
    else
      write msg_installed ;;
      (* STEP 4: START SERVER *)
      setCurrentStep 4 ;;
      startCommand ← detectStartCommand ;
      write (msg_starting startCommand) ;;
      startProcess ← await (Spawn "npm" ["run"; startCommand]) (spawn_start sb) ;
      emit (OnServerReady OnStart) ;;
      emit (PipeOutput startProcess) ;;
      setIsSetupComplete true ;;
      setIsSetupInProgress false.

(** The [catch] block of [setupContainer]. *)
Definition setupCatch (err : Thrown) : M unit :=
  emit (ConsoleError "WebContainer Setup Error:") ;;
  let msg := message_or err "Unknown error during setup" in
  setInternalError (Some msg) ;;
  write (msg_fatal msg) ;;
  setIsSetupInProgress false ;;
  setIsSetupComplete true.

Definition setupContainer (s : State) : Outcome :=
  match instance props with
  | None => mkOutcome s [] NotStarted false
  | Some _ =>
      if isSetupComplete s || isSetupInProgress s then mkOutcome s [] NotStarted false
      else if parentLoading props then mkOutcome s [] NotStarted false
      else
        let prologue := setIsSetupInProgress true ;; setInternalError None in
        match (prologue ;; try_ setupBody (fun err => setupCatch err ;; return_ Fatal))
                (mkStore s []) with
        | (Return l, σ) => mkOutcome (ui σ) (log σ) l false
        | (Normal _, σ) => mkOutcome (ui σ) (log σ) Started false
        | (Throw _, σ) => mkOutcome (ui σ) (log σ) Fatal true
        end
  end.

(** The guards of [setupContainer] let the call through. *)
Definition guards_pass (s : State) : Prop :=
  is_Some (instance props)
  ∧ isSetupComplete s = false ∧ isSetupInProgress s = false
  ∧ parentLoading props = false.

(** *** The run, stage by stage

    The same run read off the answers of the sandbox.  [setup_runs] below
    proves that [setupContainer] behaves as described here. *)

(** What a write through the handle adds to the log. *)
Definition said (data : string) : list Call :=
  match terminalRef props with
  | Some view => TermCall <$> Term.writeToTerminal data view
  | None => []
  end.

(** The detection finds a manifest and no reset is forced. *)
Definition reconnecting : bool :=
  match readFile_detect sb with
  | Resolved content => truthy content && negb (forceResetup props)
  | Rejected _ => false
  end.

(** The script the start stage settles on, and the calls it takes to find
    out. *)
Definition startCommand : string :=
  match (detectStartCommand (mkStore initial [])).1 with
  | Normal c => c
  | _ => "start"
  end.

Definition startCommandCalls : list Call :=
  log (detectStartCommand (mkStore initial [])).2.

Definition upto_detect : list Call :=
  FsReadFile "package.json" "utf8" :: (if reconnecting then said msg_reconnecting else []).

Definition upto_mount : list Call :=
  upto_detect ++ said msg_preparing
    ++ [Mount (transformToWebContainerFormat (templateData props))].

Definition upto_install : list Call :=
  upto_mount ++ said msg_mounted ++ said msg_installing
    ++ FsRm "package-lock.json"
       :: match rm_lock sb with
          | Resolved _ => said msg_lock_removed
          | Rejected _ => []
          end
    ++ [Spawn "npm" ["install"; "--no-optional"; "--legacy-peer-deps"]].

Definition upto_exit (p : Term.Process) : list Call :=
  upto_install ++ [PipeOutput p].

Definition upto_start (p : Term.Process) : list Call :=
  upto_exit p ++ said msg_installed ++ startCommandCalls
    ++ said (msg_starting startCommand) ++ [Spawn "npm" ["run"; startCommand]].

(** The state a run that got past the guards ends in. *)
Definition settled (s : State) (step : nat) (err : option string) : State :=
  mkState (previewUrl s) step err true false.

Definition ends (out : Outcome) (u : State) (l : list Call) (p : Path) : Prop :=
  final out = u ∧ calls out = l ∧ path out = p ∧ rejected out = false.

(** The [catch] block after the calls [l], at progress [step]. *)
Definition fails (out : Outcome) (s : State) (step : nat) (e : Thrown) (l : list Call)
  : Prop :=
  let msg := message_or e "Unknown error during setup" in
  ends out (settled s step (Some msg))
       (l ++ ConsoleError "WebContainer Setup Error:" :: said (msg_fatal msg)) Fatal.

Inductive Runs (s : State) (out : Outcome) : Prop :=
| RunReconnects :
    reconnecting = true →
    ends out (settled s (currentStep s) None)
         (upto_detect ++ [OnServerReady OnReconnect]) Reconnected →
    Runs s out
| RunMountFails e :
    reconnecting = false → mount sb = Rejected e →
    fails out s 2 e upto_mount →
    Runs s out
| RunInstallSpawnFails e :
    reconnecting = false → mount sb = Resolved tt → spawn_install sb = Rejected e →
    fails out s 3 e upto_install →
    Runs s out
| RunInstallExitRejects p e :
    reconnecting = false → mount sb = Resolved tt → spawn_install sb = Resolved p →
    install_exit sb = Rejected e →
    fails out s 3 e (upto_exit p) →
    Runs s out
| RunSoftFails p code :
    reconnecting = false → mount sb = Resolved tt → spawn_install sb = Resolved p →
    install_exit sb = Resolved code → code ≠ 0%Z →
    ends out (settled s 3 (Some (installFailedMsg code)))
         (upto_exit p ++ said (Term.crlf +:+ installFailedMsg code +:+ Term.crlf)
            ++ said msg_manual)
         SoftFailed →
    Runs s out
| RunStartSpawnFails p e :
    reconnecting = false → mount sb = Resolved tt → spawn_install sb = Resolved p →
    install_exit sb = Resolved 0%Z → spawn_start sb = Rejected e →
    fails out s 4 e (upto_start p) →
    Runs s out
| RunStarts p q :
    reconnecting = false → mount sb = Resolved tt → spawn_install sb = Resolved p →
    install_exit sb = Resolved 0%Z → spawn_start sb = Resolved q →
    ends out (settled s 4 None)
         (upto_start p ++ [OnServerReady OnStart; PipeOutput q]) Started →
    Runs s out.

End Run.

(** *** The component between its effects *)

Definition totalSteps : nat := 4.

(** [parentError || internalError] *)
Definition displayError (parentError internalError : option string) : option string :=
  match parentError with
  | Some m => if truthy m then Some m else internalError
  | None => internalError
  end.




(** What changes the state of the component: the reset effect, a call of
    [setupContainer] followed to its exit, and a [server-ready] event
    reaching one of the listeners. *)
Inductive Event : Type :=
| EvReset (force : bool)
| EvSetup (props : Props) (sb : Sandbox)
| EvServerReady (props : Props) (l : Listener) (url : string).

Definition react (ev : Event) (s : State) : State :=
  match ev with
  | EvReset force => resetEffect force s
  | EvSetup props sb => final (setupContainer props sb s)
  | EvServerReady props l url => ui (serverReady props l url (mkStore s [])).2
  end.

Definition after (evs : list Event) (s : State) : State :=
  fold_left (fun s ev => react ev s) evs s.

(** The address left by a sequence of events: the url of the last
    [server-ready] event, unless a forced reset came after it. *)
Definition address_after (evs : list Event) (address : string) : string :=
  fold_left (fun a ev =>
               match ev with
               | EvReset true => EmptyString
               | EvServerReady _ _ url => url
               | _ => a
               end) evs address.

Definition component_ok (s : State) : Prop :=
  (currentStep s ≤ totalSteps)%nat
  ∧ isSetupInProgress s = false
  ∧ ∀ m, internalError s = Some m → truthy m = true ∧ isSetupComplete s = true.

(** *** The calls of a run without its narrative *)

Definition is_narrative (c : Call) : bool :=
  match c with
  | TermCall _ | ConsoleError _ => true
  | _ => false
  end.

Definition skeleton (out : Outcome) : list Call :=
  List.filter (fun c => negb (is_narrative c)) (calls out).

(** The calls of a run in which every stage succeeds. *)
Definition pipeline (files : FileSystemTree) (p : Term.Process) (script : string)
           (q : Term.Process) : list Call :=
  [FsReadFile "package.json" "utf8"; Mount files; FsRm "package-lock.json";
   Spawn "npm" ["install"; "--no-optional"; "--legacy-peer-deps"]; PipeOutput p;
   FsReadFile "package.json" "utf8"; Spawn "npm" ["run"; script];
   OnServerReady OnStart; PipeOutput q].

(** The same sandbox but for how the removal of the lock file goes, the
    same props but for the terminal handle. *)
Definition with_rm_lock (r : Settled unit) (sb : Sandbox) : Sandbox :=
  mkSandbox (readFile_detect sb) (mount sb) r (spawn_install sb) (install_exit sb)
            (readFile_start sb) (spawn_start sb).

Definition with_terminal (view : option Term.State) (props : Props) : Props :=
  mkProps (templateData props) (instance props) (parentLoading props)
          (forceResetup props) view.

(** *** Runs in flight

    [setupContainer] is asynchronous: a call that gets past its guards is
    suspended at its first [await], and until it reaches its exit the
    component goes on rendering, its effects go on firing and the entry
    point can be called again.  The call is split where it first
    suspends: [setupEnter] is what it does at once, [setupRest] what it
    does from there to its exit, in the state the component is in by
    then. *)

(** The guards and the two setters before the [try]; [None] when a guard
    returns. *)
Definition setupEnter (props : Props) (s : State) : option State :=
  match instance props with
  | None => None
  | Some _ =>
      if isSetupComplete s || isSetupInProgress s then None
      else if parentLoading props then None
      else Some (ui ((setIsSetupInProgress true ;; setInternalError None) (mkStore s [])).2)
  end.

(** The [try] and [catch] blocks. *)
Definition setupRest (props : Props) (sb : Sandbox) (s : State) : Outcome :=
  match try_ (setupBody props sb) (fun err => setupCatch props err ;; return_ Fatal)
             (mkStore s []) with
  | (Return l, σ) => mkOutcome (ui σ) (log σ) l false
  | (Normal _, σ) => mkOutcome (ui σ) (log σ) Started false
  | (Throw _, σ) => mkOutcome (ui σ) (log σ) Fatal true
  end.

(** The component with its calls in flight: the React state, the calls of
    [setupContainer] that got past the guards and have not reached their
    exit (each with its props and with the answers the sandbox is going to
    give it), and the calls made so far (those of a run are entered when
    it reaches its exit). *)
Record Live : Type := mkLive {
  shown : State;
  inflight : list (Props * Sandbox);
  sofar : list Call
}.

Inductive LiveEvent : Type :=
| LvReset (force : bool)                        (* the reset effect fires *)
| LvSetup (props : Props) (sb : Sandbox)        (* the setup effect fires: [setupContainer()] *)
| LvExit (i : nat)                              (* the [i]-th call in flight runs to its exit *)
| LvServerReady (props : Props) (l : Listener) (url : string).


Definition live_step (ev : LiveEvent) (c : Live) : Live :=
  match ev with
  | LvReset force => mkLive (resetEffect force (shown c)) (inflight c) (sofar c)
  | LvSetup props sb =>
      match setupEnter props (shown c) with
      | Some s' => mkLive s' (inflight c ++ [(props, sb)]) (sofar c)
      | None => c
      end
  | LvExit i =>
      match inflight c !! i with
      | Some (props, sb) =>
          mkLive (final (setupRest props sb (shown c))) (delete i (inflight c))
                 (sofar c ++ calls (setupRest props sb (shown c)))
      | None => c
      end
  | LvServerReady props l url =>
      mkLive (ui (serverReady props l url (mkStore (shown c) [])).2) (inflight c)
             (sofar c ++ log (serverReady props l url (mkStore (shown c) [])).2)
  end.

Definition live (evs : list LiveEvent) : Live :=
  fold_left (fun c ev => live_step ev c) evs (mkLive initial [] []).


End Setup.

End Preview.

(** ** A sample project, for concrete runs *)

Module Sample.

(** A project is a list of files; the mount descriptor is taken to be the
    same list. *)
Definition Tree : Type := list (string * string).

Definition transform (t : Tree) : Tree := t.

Definition dq : string := String (ascii_of_nat 34) EmptyString.

(** A manifest with a [dev] script, as text and as [JSON.parse] reads it. *)
Definition manifest : string :=
  "{" +:+ dq +:+ "scripts" +:+ dq +:+ ":{" +:+ dq +:+ "dev" +:+ dq +:+ ":"
      +:+ dq +:+ "vite" +:+ dq +:+ "}}".

Definition manifest_json : Json :=
  JObj [("scripts", JObj [("dev", JStr "vite")])].

(** [JSON.parse] on the texts of this sample: everything but the manifest
    is rejected. *)
Definition parse (raw : string) : option Json :=
  if String.eqb raw manifest then Some manifest_json else None.




Definition tree : Tree := [("package.json", manifest); ("index.html", "<h1>hi</h1>")].

(** A terminal view whose surface 1 is live. *)
Definition view : Term.State :=
  Term.mkState (Some 1) (Some 1) (Some 1) None false [1] [] [] [].

(** A booted instance, a parent that has finished loading. *)
Definition props (force : bool) : @Preview.Props Tree :=
  Preview.mkProps tree (Some 1) false force (Some view).

(** A sandbox in which everything succeeds, but for what the detection
    finds and the exit code of the installation. *)
Definition sandbox (detect start : Settled string) (code : Z) : Preview.Sandbox :=
  Preview.mkSandbox detect (Resolved tt) (Resolved tt) (Resolved 10) (Resolved code)
                    start (Resolved 11).

Definition setup (force : bool) (detect start : Settled string) (code : Z)
           (s : Preview.State) : @Preview.Outcome Tree :=
  Preview.setupContainer transform parse (props force) (sandbox detect start code) s.

End Sample.

(** * Properties *)

(** ** The runtime session hook *)

Section HookFacts.

Import Hook.

Lemma isTornDown_set_closures cs h : isTornDown (set_closures cs h) = isTornDown h.
Proof. reflexivity. Qed.

Lemma guarded_teardown_no_boot w td tag : Boot ∉ guarded_teardown w td tag.
Proof.
  destruct td; cbn; intros H;
    repeat (apply elem_of_cons in H as [H | H]; [discriminate |]);
    by apply elem_of_nil in H.
Qed.

(** One event in a torn-down session: the flag stays, what the caller
    sees of the session does not change, and nothing is booted. *)
Lemma step_torn_down ev h h' cs :
  step ev h = Some (h', cs) →
  isTornDown h = true →
  isTornDown h' = true ∧ instance h' = instance h ∧ isReady h' = isReady h ∧ Boot ∉ cs.
Proof.
  intros Hstep Htd. destruct ev as [| i r td | i | i td | td]; cbn in Hstep.
  - unfold effect, initializeWebContainer in Hstep. rewrite Htd, orb_true_r in Hstep.
    injection Hstep as <- <-. cbn. repeat split; try done. apply not_elem_of_nil.
  - unfold bootSettled in Hstep.
    destruct (closures h !! i) as [c |]; [| discriminate].
    destruct (awaitingBoot c); [| discriminate].
    destruct r as [w | e].
    + rewrite Htd, orb_true_r in Hstep. injection Hstep as <- <-. cbn.
      repeat split; try done. apply guarded_teardown_no_boot.
    + injection Hstep as <- <-. destruct (mounted c); cbn; repeat split; try done;
        intros H; apply elem_of_cons in H as [H | H]; try discriminate;
        by apply elem_of_nil in H.
  - unfold cleanup in Hstep.
    destruct (closures h !! i) as [c |]; [| discriminate].
    destruct (containerRef c); rewrite ?Htd in Hstep; cbn in Hstep;
      injection Hstep as <- <-; cbn; repeat split; try done; apply not_elem_of_nil.
  - unfold timerFired in Hstep.
    destruct (closures h !! i) as [c |]; [| discriminate].
    destruct (timerPending c); [| discriminate].
    injection Hstep as <- <-. cbn. repeat split; try done.
    destruct (containerRef c); [apply guarded_teardown_no_boot | apply not_elem_of_nil].
  - unfold destroy in Hstep. destruct (instance h) eqn:Hi; rewrite ?Htd in Hstep;
      cbn in Hstep; injection Hstep as <- <-; repeat split; try done;
      apply not_elem_of_nil.
Qed.


(** No event ever clears the flag. *)
Lemma step_isTornDown_mono ev h h' cs :
  step ev h = Some (h', cs) → isTornDown h = true → isTornDown h' = true.
Proof. intros Hs Ht. by destruct (step_torn_down _ _ _ _ Hs Ht). Qed.

(** A boot that settles in a closure already cleaned up is torn down at
    once as well, whether or not the flag is set. *)
Lemma boot_after_unmount i c w td h :
  closures h !! i = Some c → awaitingBoot c = true → mounted c = false →
  ∃ h', bootSettled i (Resolved w) td h
        = Some (h', guarded_teardown w td "Error during immediate teardown:")
        ∧ instance h' = instance h ∧ isReady h' = isReady h
        ∧ isInitializing h' = false.
Proof.
  intros Hc Ha Hm. unfold bootSettled. rewrite Hc, Ha, Hm. cbn.
  eexists. split; [reflexivity |]. by cbn.
Qed.

(** *** Splitting a path *)

Lemma split_slash_nonempty s : split_slash s ≠ [].
Proof.
  destruct s as [| c s]; cbn; [done |].
  destruct (Ascii.eqb c "/"); [done |]. by destruct (split_slash s).
Qed.

Lemma join_slash_cons p ps :
  ps ≠ [] → join_slash (p :: ps) = p +:+ "/" +:+ join_slash ps.
Proof. by destruct ps. Qed.

Lemma join_split_slash s : join_slash (split_slash s) = s.
Proof.
  induction s as [| c s IH]; [done |]. cbn [split_slash].
  destruct (Ascii.eqb_spec c "/") as [-> | Hc].
  - rewrite join_slash_cons by apply split_slash_nonempty. by rewrite IH.
  - pose proof (split_slash_nonempty s) as Hne.
    destruct (split_slash s) as [| seg segs]; [done |].
    destruct segs as [| seg' segs]; cbn in *; by rewrite <- IH.
Qed.

Lemma string_app_assoc (a b c : string) : (a +:+ b) +:+ c = a +:+ (b +:+ c).
Proof.
  induction a as [| x a IH]; [done |].
  change (String x ((a +:+ b) +:+ c) = String x (a +:+ (b +:+ c))). by rewrite IH.
Qed.

Lemma join_slash_snoc ini name :
  ini ≠ [] → join_slash (ini ++ [name]) = join_slash ini +:+ "/" +:+ name.
Proof.
  induction ini as [| p ini IH]; [done |]. intros _.
  destruct ini as [| q ini]; [done |].
  change (join_slash ((p :: q :: ini) ++ [name]))
    with (p +:+ "/" +:+ join_slash ((q :: ini) ++ [name])).
  rewrite IH by done.
  change (join_slash (p :: q :: ini)) with (p +:+ "/" +:+ join_slash (q :: ini)).
  by rewrite !string_app_assoc.
Qed.

(** A path with a directory part is that part, a slash, and the name. *)
Lemma folderPath_decompose path :
  truthy (folderPath path) = true →
  ∃ name, split_slash path = (slice_init (split_slash path) ++ [name])%list
          ∧ path = folderPath path +:+ "/" +:+ name.
Proof.
  intros Ht. unfold folderPath, slice_init in *.
  pose proof (split_slash_nonempty path) as Hne.
  destruct (exists_last Hne) as (ini & name & Heq).
  exists name. rewrite Heq, removelast_last in *. split; [done |].
  rewrite <- (join_split_slash path) at 1. rewrite Heq.
  apply join_slash_snoc. by intros ->.
Qed.

(** *** Teardown *)



(** *** Writing a file *)

(** C8, as stated, fails: a write refused because the session is absent
    carries a message that does not mention the path. *)
Lemma writeFile_unavailable_error_omits_path :
  ¬ (∀ mk wr path content h,
       instance h = None ∨ isTornDown h = true →
       ∃ m, rejection_message (writeFileSync mk wr path content h).1 = Some m
            ∧ includes m path = true).
Proof.
  intros H.
  destruct (H (Resolved tt) (Resolved tt) "src/index.js" "x" initial (or_introl eq_refl))
    as (m & Hm & Hin).
  cbn in Hm. injection Hm as <-. vm_compute in Hin. discriminate.
Qed.

Lemma includes_prefix_of p s : prefix_of p s = true → includes s p = true.
Proof. intros H. destruct s; cbn; by rewrite H. Qed.

Lemma includes_cons c s sub : includes s sub = true → includes (String c s) sub = true.
Proof. intros H. cbn. rewrite H. apply orb_true_r. Qed.

Lemma includes_app_l a s sub : includes s sub = true → includes (a +:+ s) sub = true.
Proof.
  intros H. induction a as [| c a IH]; [done |].
  change (String c a +:+ s) with (String c (a +:+ s)). by apply includes_cons.
Qed.

Lemma prefix_of_app p s : prefix_of p (p +:+ s) = true.
Proof.
  induction p as [| c p IH]; [done |].
  change (String c p +:+ s) with (String c (p +:+ s)). cbn.
  by rewrite Ascii.eqb_refl, IH.
Qed.

Lemma rethrow_mentions_path path e :
  ∃ m, (rethrow path e).1 = Rejected (ErrorObj m) ∧ includes m path = true.
Proof.
  eexists. split; [reflexivity |].
  apply includes_app_l, includes_prefix_of, prefix_of_app.
Qed.

(** C8, amended.  On a live session [writeFileSync] first creates the
    directory part of the path (everything before the last slash, when
    there is one) and then writes the content; a failure of either call is
    rethrown with a message that includes the path, and a failed [mkdir]
    leaves the file unwritten.  When the session is absent or torn down
    the call is refused with the fixed message "WebContainer instance is
    not available" and touches nothing. *)
Theorem writeFileSync_spec (mk wr : Settled unit) (path content : string) (h : State) :
  (∀ w, instance h = Some w → isTornDown h = false →
     let dirs := if truthy (folderPath path) then [FsMkdir w (folderPath path)] else [] in
     (mk = Resolved tt → wr = Resolved tt →
        writeFileSync mk wr path content h
        = (Resolved tt, (dirs ++ [FsWriteFile w path content])%list))
     ∧ (truthy (folderPath path) = true →
        ∃ name, path = folderPath path +:+ "/" +:+ name)
     ∧ (∀ e, truthy (folderPath path) = true → mk = Rejected e →
        ∃ m, writeFileSync mk wr path content h
             = (Rejected (ErrorObj m),
                [FsMkdir w (folderPath path);
                 ConsoleError ("Failed to write file at " +:+ path +:+ ":")])
             ∧ includes m path = true)
     ∧ (∀ e, (truthy (folderPath path) = true → mk = Resolved tt) → wr = Rejected e →
        ∃ m, writeFileSync mk wr path content h
             = (Rejected (ErrorObj m),
                (dirs ++ [FsWriteFile w path content;
                          ConsoleError ("Failed to write file at " +:+ path +:+ ":")])%list)
             ∧ includes m path = true))
  ∧ (instance h = None ∨ isTornDown h = true →
     writeFileSync mk wr path content h = (unavailable, [])).
Proof.
  split.
  - intros w Hi Ht dirs. unfold writeFileSync. rewrite Hi, Ht. subst dirs.
    destruct (rethrow_mentions_path path) with (e := NonError) as (m0 & _ & _).
    repeat split.
    + intros -> ->. by destruct (truthy (folderPath path)).
    + intros Hf. destruct (folderPath_decompose path Hf) as (name & _ & Hp). eauto.
    + intros e Hf ->. rewrite Hf.
      destruct (rethrow_mentions_path path e) as (m & Hm & Hin).
      exists m. split; [| done]. unfold rethrow in *. cbn in *. congruence.
    + intros e Hmk ->.
      destruct (rethrow_mentions_path path e) as (m & Hm & Hin).
      exists m. split; [| done]. unfold rethrow in *. cbn in Hm.
      destruct (truthy (folderPath path)).
      * rewrite Hmk by done. cbn. congruence.
      * cbn. congruence.
  - intros [Hi | Ht]; unfold writeFileSync.
    + by rewrite Hi.
    + rewrite Ht. by destruct (instance h).
Qed.

Lemma writeFileSync_spec_witness :
  let h := (run [EvEffect; EvBootSettled 0 (Resolved 5) (Resolved tt)] initial).1 in
  writeFileSync (Resolved tt) (Resolved tt) "src/lib/util.ts" "export {}" h
  = (Resolved tt, [FsMkdir 5 "src/lib"; FsWriteFile 5 "src/lib/util.ts" "export {}"])
  ∧ writeFileSync (Resolved tt) (Resolved tt) "src/lib/util.ts" "export {}" initial
    = (unavailable, []).
Proof.
  split.
  - refine (proj1 (proj1 (writeFileSync_spec (Resolved tt) (Resolved tt)
                            "src/lib/util.ts" "export {}" _) 5 _ _) _ _);
      reflexivity.
  - refine (proj2 (writeFileSync_spec (Resolved tt) (Resolved tt)
                     "src/lib/util.ts" "export {}" initial) _).
    left. reflexivity.
Defined.

(** *** Letting go of the session *)

(** C9, as stated, fails: [destroy] on a published session calls
    [teardown] at once and sets no timer. *)
Lemma destroy_tears_down_synchronously :
  ¬ (∀ r h h' cs,
       release r h = Some (h', cs) → isTornDown h = false → isTornDown h' = true →
       existsb is_timeout cs = true ∧ existsb is_teardown cs = false).
Proof.
  intros H.
  pose (h := (run [EvEffect; EvBootSettled 0 (Resolved 5) (Resolved tt)] initial).1).
  destruct (H (ByDestroy (Resolved tt)) h _ _ eq_refl eq_refl eq_refl) as [Ht _].
  discriminate.
Qed.

Lemma cleanup_again i h h1 cs1 :
  cleanup i h = Some (h1, cs1) → cleanup i h1 = Some (h1, []).
Proof.
  unfold cleanup. destruct (closures h !! i) as [c |] eqn:Hc; [| discriminate].
  pose proof (lookup_lt_Some _ _ _ Hc) as Hlt.
  destruct h as [su lo er ins rd td ini cs]; cbn in *.
  destruct (containerRef c) as [w |] eqn:Hw; [destruct td |]; cbn;
    intros [= <- <-]; cbn; rewrite list_lookup_insert_eq by done; cbn;
    rewrite ?Hw; cbn; by rewrite list_insert_insert_eq.
Qed.

Lemma destroy_again td h : destroy td (destroy td h).1 = ((destroy td h).1, []).
Proof.
  unfold destroy. destruct (instance h) eqn:Hi; [destruct (isTornDown h) eqn:Ht |]; cbn.
  - by rewrite Hi, Ht.
  - done.
  - by rewrite Hi.
Qed.

(** C9, amended.  Letting go of the session is idempotent: the same
    request again changes nothing and makes no call, any request after
    one that took effect makes no call, and a request on a session never
    acquired makes no call.  When unmounting takes effect it only sets a
    100 ms timer, whose callback calls [teardown]; when [destroy] takes
    effect it calls [teardown] at once and withdraws the instance. *)
Theorem release_idempotent (r : Release) (h h1 : State) (cs1 : list Call) :
  release r h = Some (h1, cs1) →
  release r h1 = Some (h1, [])
  ∧ (isTornDown h1 = true →
     ∀ r' h2 cs2, release r' h1 = Some (h2, cs2) →
       cs2 = [] ∧ isTornDown h2 = true ∧ instance h2 = instance h1)
  ∧ match r with
    | ByUnmount i =>
        ∀ c, closures h !! i = Some c → containerRef c = None →
             cs1 = [] ∧ isTornDown h1 = isTornDown h ∧ instance h1 = instance h
    | ByDestroy _ => instance h = None → cs1 = [] ∧ h1 = h
    end
  ∧ (isTornDown h = false → isTornDown h1 = true →
     match r with
     | ByUnmount i =>
         cs1 = [SetTimeout 100]
         ∧ ∃ c w, closures h1 !! i = Some c ∧ containerRef c = Some w
                  ∧ ∀ td, ∃ h2, timerFired i td h1
                                = Some (h2, guarded_teardown w td "Error during cleanup teardown:")
     | ByDestroy td =>
         ∃ w, instance h = Some w
              ∧ cs1 = guarded_teardown w td "Error during manual teardown:"
              ∧ instance h1 = None
     end).
Proof.
  intros Hrel. split; [| split; [| split]].
  - destruct r as [i | td]; cbn in *.
    + by eapply cleanup_again.
    + injection Hrel as Hd.
      assert (Hh1 : h1 = (destroy td h).1) by (by rewrite Hd).
      rewrite Hh1. f_equal. apply destroy_again.
  - intros Htd r' h2 cs2 Hrel'.
    assert (Hstep : ∃ ev, step ev h1 = Some (h2, cs2)).
    { destruct r' as [j | td']; [by exists (EvCleanup j) | by exists (EvDestroy td')]. }
    destruct Hstep as (ev & Hstep).
    destruct (step_torn_down _ _ _ _ Hstep Htd) as (? & ? & _ & _).
    repeat split; try done.
    destruct r' as [j | td']; cbn in Hrel'.
    + unfold cleanup in Hrel'. destruct (closures h1 !! j) as [c |]; [| discriminate].
      rewrite Htd in Hrel'.
      destruct (containerRef c); cbn in Hrel'; by injection Hrel' as <- <-.
    + unfold destroy in Hrel'. rewrite Htd in Hrel'.
      destruct (instance h1); cbn in Hrel'; by injection Hrel' as <- <-.
  - destruct r as [i | td]; cbn in Hrel.
    + intros c Hc Hn. unfold cleanup in Hrel. rewrite Hc, Hn in Hrel.
      by injection Hrel as <- <-.
    + intros Hi. unfold destroy in Hrel. rewrite Hi in Hrel. by injection Hrel as <- <-.
  - intros Hf Ht. destruct r as [i | td]; cbn in Hrel.
    + unfold cleanup in Hrel. destruct (closures h !! i) as [c |] eqn:Hc; [| discriminate].
      pose proof (lookup_lt_Some _ _ _ Hc) as Hlt.
      destruct (containerRef c) as [w |] eqn:Hw.
      * rewrite Hf in Hrel. cbn in Hrel. injection Hrel as <- <-. split; [done |].
        eexists _, w. cbn. rewrite list_lookup_insert_eq by done.
        split; [done |]. split; [done |]. intros td. unfold timerFired. cbn.
        rewrite list_lookup_insert_eq by done. cbn. rewrite ?Hw. eauto.
      * injection Hrel as <- <-. cbn in Ht. congruence.
    + unfold destroy in Hrel. destruct (instance h) as [w |] eqn:Hi.
      * rewrite Hf in Hrel. cbn in Hrel. injection Hrel as <- <-. by exists w.
      * injection Hrel as <- <-. congruence.
Qed.

Lemma release_idempotent_witness :
  let h := (run [EvEffect; EvBootSettled 0 (Resolved 5) (Resolved tt)] initial).1 in
  let h1 := (run [EvCleanup 0] h).1 in
  release (ByUnmount 0) h = Some (h1, [SetTimeout 100])
  ∧ release (ByUnmount 0) h1 = Some (h1, []).
Proof.
  intros h h1. split; [reflexivity |].
  refine (proj1 (release_idempotent (ByUnmount 0) h h1 [SetTimeout 100] _)).
  reflexivity.
Defined.

End HookFacts.

(** ** The terminal view and its shell *)

Section TermFacts.

Import Term.

Lemma step_keeps_no_surface ev st st' cs :
  step ev st = Some (st', cs) → initialises ev = false → term st = None → term st' = None.
Proof.
  intros Hstep Hinit Hnone. destruct ev as [wc dom t | t mc mr | t r | t p code | t kl];
    cbn in Hstep, Hinit.
  - unfold init in Hstep. rewrite Hnone in Hstep.
    destruct wc, dom; cbn in *; discriminate.
  - unfold startShell in Hstep. case_bool_decide; [| discriminate].
    by destruct (isShellStarting st); injection Hstep as <- <-.
  - unfold spawnSettled in Hstep. case_bool_decide; [| discriminate].
    by destruct r as [[p |] | e]; injection Hstep as <- <-.
  - unfold processExited in Hstep. case_bool_decide; [| discriminate].
    by injection Hstep as <- <-.
  - case_bool_decide; congruence.
Qed.

Lemma NoSurface_term st : NoSurface st → term st = None.
Proof.
  induction 1 as [| t kl st | ev st st' cs _ IH Hi Hs]; [done | done |].
  by eapply step_keeps_no_surface.
Qed.

(** C10.  While the view has no surface (never initialised, or disposed
    and not initialised again) [writeToTerminal], [clearTerminal] and
    [focusTerminal] make no call at all, and a line the setup run writes
    through the handle is dropped: the write completes normally and leaves
    state and log as they were. *)
Theorem handle_silent_without_surface (st : State) (data : string) :
  NoSurface st →
  writeToTerminal data st = []
  ∧ clearTerminal st = []
  ∧ focusTerminal st = []
  ∧ ∀ (TemplateFolder FileSystemTree : Type) (props : @Preview.Props TemplateFolder)
      (σ : @Preview.Store FileSystemTree),
      Preview.terminalRef props = Some st →
      Preview.write props data σ = (Preview.Normal tt, σ).
Proof.
  intros Hno. apply NoSurface_term in Hno.
  unfold writeToTerminal, clearTerminal, focusTerminal. rewrite Hno.
  repeat split. intros TF FST props σ Href.
  unfold Preview.write. rewrite Href. unfold writeToTerminal. rewrite Hno.
  destruct σ as [u l]. unfold Preview.emits. cbn. by rewrite app_nil_r.
Qed.

Lemma handle_silent_without_surface_witness :
  let st := run [EvInit true true 1; EvStartShell 1 (Some 80%Z) (Some 24%Z);
                 EvSpawnSettled 1 (Resolved (Some 10))] initial in
  Term.term st = Some 1
  ∧ writeToTerminal "npm install" st = [XWrite 1 "npm install"]
  ∧ writeToTerminal "npm install" (cleanup 1 (Resolved tt) st).1 = [].
Proof.
  intros st. split; [reflexivity |]. split; [reflexivity |].
  exact (proj1 (handle_silent_without_surface _ "npm install"
                  (Disposed 1 (Resolved tt) st))).
Defined.

(** *** Resize events *)



Lemma onResize_only_own p p' c r rs size st :
  ProcResize p' c r ∈ onResize p rs size st → p' = p ∧ c = cols size ∧ r = rows size.
Proof.
  unfold onResize.
  destruct (_ && _ && _); [| by intros ?%elem_of_nil].
  destruct rs; intros H;
    repeat (apply elem_of_cons in H as [H | H]; [first [discriminate | by injection H] |]);
    by apply elem_of_nil in H.
Qed.




End TermFacts.

(** ** The setup run *)

Section SetupFacts.

Import Preview.

Context {TemplateFolder FileSystemTree : Type}.
Variable transform : TemplateFolder → FileSystemTree.
Variable parse : string → option Json.
Variable props : @Props TemplateFolder.
Variable sb : Sandbox.

Abbreviation setup := (setupContainer transform parse props sb).
Abbreviation Store' := (@Store FileSystemTree).
Abbreviation script := (@startCommand TemplateFolder FileSystemTree parse props sb).
Abbreviation scriptCalls := (@startCommandCalls TemplateFolder FileSystemTree parse props sb).

(** A write only adds to the log. *)
Lemma write_frame data (σ : Store') :
  write props data σ = (Normal tt, mkStore (ui σ) (log σ ++ said props data)).
Proof.
  unfold write, said. destruct σ as [u l], (terminalRef props); cbn; [done |].
  by rewrite app_nil_r.
Qed.

Lemma checkReconnect_frame (σ : Store') :
  checkReconnect props sb σ
  = (Normal (reconnecting props sb), mkStore (ui σ) (log σ ++ upto_detect props sb)).
Proof.
  unfold checkReconnect, reconnecting, upto_detect, reconnecting.
  cbv [try_ mbind M_bind mret M_ret await].
  destruct (readFile_detect sb) as [content | e]; [| done].
  destruct (truthy content && negb (forceResetup props)); [| done].
  rewrite write_frame. cbn. by rewrite <- app_assoc.
Qed.

(** The start command is found the same way whatever the store: a read of
    the manifest, and the warning when the fallback is forced. *)
Lemma detectStartCommand_uniform :
  ∃ c l,
    (∀ σ : Store',
       detectStartCommand parse props sb σ = (Normal c, mkStore (ui σ) (log σ ++ l)))
    ∧ (c = "dev" ∨ c = "start")
    ∧ (l = [FsReadFile "package.json" "utf8"]
       ∨ c = "start" ∧ l = FsReadFile "package.json" "utf8" :: said props msg_no_scripts).
Proof.
  unfold detectStartCommand, pickScript.
  cbv [try_ mbind M_bind mret M_ret await throw].
  assert (Hwarn : ∀ (σ : Store') c,
             (let (c0, σ') := write props msg_no_scripts (mkStore (ui σ) (log σ ++ [c])) in
              match c0 with
              | Normal _ => (Normal "start", σ')
              | Return l => (Return l, σ')
              | Throw e => (Throw e, σ')
              end)
             = (Normal "start", mkStore (ui σ) (log σ ++ c :: said props msg_no_scripts))).
  { intros σ c. rewrite write_frame. cbn. by rewrite <- app_assoc. }
  assert (Hfallback :
            ∃ c l,
              (∀ σ : Store',
                 (let (c0, σ') :=
                    write props msg_no_scripts
                          (mkStore (ui σ) (log σ ++ [FsReadFile "package.json" "utf8"])) in
                  match c0 with
                  | Normal _ => (Normal "start", σ')
                  | Return l => (Return l, σ')
                  | Throw e => (Throw e, σ')
                  end) = (Normal c, mkStore (ui σ) (log σ ++ l)))
              ∧ (c = "dev" ∨ c = "start")
              ∧ (l = [FsReadFile "package.json" "utf8"]
                 ∨ c = "start"
                   ∧ l = FsReadFile "package.json" "utf8" :: said props msg_no_scripts)).
  { eexists _, _. split; [intros σ; apply Hwarn |]. split; [by right | by right]. }
  assert (Hquiet : ∀ c : string,
            c = "dev" ∨ c = "start" →
            ∃ c' l,
              (∀ σ : Store',
                 (Normal c, mkStore (ui σ) (log σ ++ [FsReadFile "package.json" "utf8"]))
                 = (Normal c', mkStore (ui σ) (log σ ++ l)))
              ∧ (c' = "dev" ∨ c' = "start")
              ∧ (l = [@FsReadFile FileSystemTree "package.json" "utf8"]
                 ∨ c' = "start"
                   ∧ l = FsReadFile "package.json" "utf8" :: said props msg_no_scripts)).
  { intros c Hc. exists c, [FsReadFile "package.json" "utf8"]. by eauto. }
  destruct (readFile_start sb) as [raw | e]; [| exact Hfallback].
  destruct (parse raw) as [pkg |]; [| exact Hfallback].
  destruct (get_prop pkg "scripts") as [[scripts |] |];
    [| apply Hquiet; by right | exact Hfallback].
  destruct (truthy_json scripts); [| apply Hquiet; by right].
  destruct (get_prop scripts "dev") as [dev |]; [| exact Hfallback].
  destruct (truthy_opt dev); apply Hquiet; [by left | by right].
Qed.

Lemma script_cases :
  (script = "dev" ∨ script = "start")
  ∧ (scriptCalls = [FsReadFile "package.json" "utf8"]
     ∨ script = "start"
       ∧ scriptCalls = FsReadFile "package.json" "utf8" :: said props msg_no_scripts).
Proof.
  destruct detectStartCommand_uniform as (c & l & H & Hc & Hl).
  unfold startCommand, startCommandCalls. by rewrite !H.
Qed.

Lemma detectStartCommand_frame (σ : Store') :
  detectStartCommand parse props sb σ
  = (Normal script, mkStore (ui σ) (log σ ++ scriptCalls)).
Proof.
  destruct detectStartCommand_uniform as (c & l & H & _).
  unfold startCommand, startCommandCalls. by rewrite !H.
Qed.

Ltac project :=
  cbv beta iota;
  cbn [ui log previewUrl currentStep internalError isSetupComplete isSetupInProgress].

Ltac frames :=
  project;
  repeat (first [ rewrite checkReconnect_frame
                | rewrite detectStartCommand_frame
                | rewrite write_frame ];
          project).

Ltac same_calls :=
  unfold fails, ends, settled, upto_start, upto_exit, upto_install, upto_mount;
  cbn [final calls path rejected];
  try match goal with H : rm_lock _ = _ |- _ => rewrite H end;
  repeat split; try done;
  repeat (rewrite <- ?app_assoc; cbn [app]); try done.

(** A call that gets past the guards runs as described stage by stage. *)
Lemma setup_runs (s : State) :
  guards_pass props s → Runs transform parse props sb s (setup s).
Proof.
  intros ([w Hw] & Hc & Hp & Hl).
  unfold setupContainer. rewrite Hw, Hc, Hp, Hl. cbn [orb].
  unfold setupBody, setupCatch.
  cbv [mbind M_bind mret M_ret try_ await settle emit emits modify return_ throw
       setPreviewUrl setCurrentStep setInternalError setIsSetupComplete
       setIsSetupInProgress].
  frames.
  destruct (reconnecting props sb) eqn:Hrec.
  { apply RunReconnects; [done |]. same_calls. }
  frames.
  destruct (mount sb) as [[] | ?] eqn:Hmount; frames;
    [| eapply RunMountFails; [done .. |]; same_calls].
  destruct (rm_lock sb) as [[] | ?] eqn:Hrm; frames;
    (destruct (spawn_install sb) as [p | ?] eqn:Hsi; frames;
     [| eapply RunInstallSpawnFails; [done .. |]; same_calls]);
    (destruct (install_exit sb) as [code | ?] eqn:Hie; frames;
     [| eapply RunInstallExitRejects; [done .. |]; same_calls]);
    (destruct (Z.eqb_spec code 0) as [-> | Hcode]; cbn [negb]; frames;
     [| eapply RunSoftFails; [done .. |]; same_calls]);
    (destruct (spawn_start sb) as [q | ?] eqn:Hss; frames;
     [ eapply RunStarts; [done .. |]; same_calls
     | eapply RunStartSpawnFails; [done .. |]; same_calls ]).
Qed.

(** A call stopped by a guard does nothing. *)
Lemma setup_guarded (s : State) :
  ¬ guards_pass props s → setup s = mkOutcome s [] NotStarted false.
Proof.
  intros Hg. unfold setupContainer, guards_pass in *.
  destruct (instance props); [| done].
  destruct (isSetupComplete s), (isSetupInProgress s), (parentLoading props); try done.
  destruct Hg. eauto.
Qed.

Lemma guards_pass_dec (s : State) : guards_pass props s ∨ ¬ guards_pass props s.
Proof.
  unfold guards_pass.
  destruct (instance props), (isSetupComplete s), (isSetupInProgress s),
    (parentLoading props);
    first [ left; by eauto
          | right; intros ([? ?] & ? & ? & ?); done ].
Qed.

(** *** Counting the calls of a run *)

Lemma said_cases data :
  said props data = @nil (@Call FileSystemTree)
  ∨ ∃ t, said props data = [@TermCall FileSystemTree (Term.XWrite t data)].
Proof.
  unfold said. destruct (terminalRef props) as [view |]; [| by left].
  unfold Term.writeToTerminal. destruct (Term.term view); [right; by eexists | by left].
Qed.

Lemma existsb_said (kind : @Call FileSystemTree → bool) data :
  (∀ t, kind (TermCall (Term.XWrite t data)) = false) →
  existsb kind (said props data) = false.
Proof.
  intros Hk. destruct (said_cases data) as [-> | [t ->]]; [done |]. cbn. by rewrite Hk.
Qed.

Lemma omap_said {B} (f : @Call FileSystemTree → option B) data :
  (∀ t, f (TermCall (Term.XWrite t data)) = None) → omap f (said props data) = [].
Proof.
  intros Hf. destruct (said_cases data) as [-> | [t ->]]; [done |]. cbn. by rewrite Hf.
Qed.

Lemma existsb_scriptCalls (kind : @Call FileSystemTree → bool) :
  kind (FsReadFile "package.json" "utf8") = false →
  (∀ t, kind (TermCall (Term.XWrite t msg_no_scripts)) = false) →
  existsb kind scriptCalls = false.
Proof.
  intros Hread Hwrite. destruct script_cases as [_ [-> | [_ ->]]]; cbn; rewrite Hread; [done |].
  by apply existsb_said.
Qed.

Lemma omap_scriptCalls {B} (f : @Call FileSystemTree → option B) :
  f (FsReadFile "package.json" "utf8") = None →
  (∀ t, f (TermCall (Term.XWrite t msg_no_scripts)) = None) →
  omap f scriptCalls = [].
Proof.
  intros Hread Hwrite. destruct script_cases as [_ [-> | [_ ->]]]; cbn; rewrite Hread; [done |].
  by apply omap_said.
Qed.

Ltac tally :=
  unfold made;
  repeat match goal with
         | H : calls _ = _ |- _ => rewrite H; clear H
         end;
  unfold upto_start, upto_exit, upto_install, upto_mount, upto_detect;
  repeat match goal with
         | H : reconnecting _ _ = _ |- _ => rewrite H; clear H
         end;
  try match goal with
      | |- context [rm_lock sb] => destruct (rm_lock sb)
      end;
  repeat first [ rewrite existsb_app
               | rewrite existsb_said by done
               | rewrite existsb_scriptCalls by done
               | rewrite omap_app
               | rewrite omap_said by done
               | rewrite omap_scriptCalls by done
               | progress cbn ].

Ltac scenario H :=
  unfold fails, ends, settled in H; destruct H as (Hfinal & Hcalls & Hpath & Hrej).

(** *** Soft failure of the installation *)

(** C2.  When the run spawns the installation and its exit code is not
    zero, the run ends on the soft-failure return: its promise does not
    reject, the error message is recorded in [internalError], the setup is
    marked complete with the progress left at step 3 and the in-progress
    flag cleared, no [npm run] is spawned and no server-ready listener is
    attached, the message is written to the terminal when there is one,
    and nothing but writes ever reaches the terminal surface.  The message
    is the text "npm install failed with code" followed by the exit code
    and the pointer to the terminal: it is never empty, so that
    [displayError] is truthy whatever the parent reports. *)
Theorem install_failure_is_soft (s : State) (p : Term.Process) (code : Z) :
  guards_pass props s →
  made (is_npm "install") (setup s) = true →
  spawn_install sb = Resolved p →
  install_exit sb = Resolved code →
  code ≠ 0%Z →
  path (setup s) = SoftFailed
  ∧ rejected (setup s) = false
  ∧ final (setup s) = mkState (previewUrl s) 3 (Some (installFailedMsg code)) true false
  ∧ made (is_npm "run") (setup s) = false
  ∧ made is_listen (setup s) = false
  ∧ made harms_terminal (setup s) = false
  ∧ (∀ view t,
      terminalRef props = Some view → Term.term view = Some t →
      TermCall (Term.XWrite t (Term.crlf +:+ installFailedMsg code +:+ Term.crlf))
        ∈ calls (setup s))
  ∧ internalError (final (setup s))
    = Some ("❌ npm install failed with code " +:+ pretty code
            +:+ ". See terminal for details.")
  ∧ (∀ view t,
      terminalRef props = Some view → Term.term view = Some t →
      TermCall (Term.XWrite t (Term.crlf
                               +:+ ("❌ npm install failed with code " +:+ pretty code
                                    +:+ ". See terminal for details.")
                               +:+ Term.crlf))
        ∈ calls (setup s))
  ∧ ∀ parentError,
      ∃ m, displayError parentError (internalError (final (setup s))) = Some m
           ∧ truthy m = true.
Proof.
  intros Hg Hmade Hsi Hie Hcode.
  destruct (setup_runs s Hg)
    as [Hrec H | e Hrec Hm H | e Hrec Hm Hsi' H | p' e Hrec Hm Hsi' Hie' H
        | p' code' Hrec Hm Hsi' Hie' Hcode' H | p' e Hrec Hm Hsi' Hie' Hss H
        | p' q Hrec Hm Hsi' Hie' Hss H];
    try congruence; scenario H.
  - exfalso. revert Hmade. tally; discriminate.
  - exfalso. revert Hmade. tally; discriminate.
  - assert (code' = code) as -> by congruence.
    assert (p' = p) as -> by congruence.
    repeat split; try done.
    + tally; done.
    + tally; done.
    + tally; done.
    + intros view t Hview Ht. rewrite Hcalls.
      rewrite !elem_of_app. right. left.
      unfold said. rewrite Hview. unfold Term.writeToTerminal. rewrite Ht.
      cbn. apply elem_of_cons. by left.
    + by rewrite Hfinal.
    + intros view t Hview Ht. rewrite Hcalls.
      rewrite !elem_of_app. right. left.
      unfold said. rewrite Hview. unfold Term.writeToTerminal. rewrite Ht.
      cbn. apply elem_of_cons. by left.
    + intros pe. rewrite Hfinal. cbn [internalError]. unfold displayError.
      destruct pe as [m |]; [destruct (truthy m) eqn:Htm; [by exists m |] |];
        by exists (installFailedMsg code).
Qed.

(** *** Re-entrancy *)



Abbreviation enter := (@setupEnter TemplateFolder FileSystemTree).


(** *** Reconnecting and forced reset *)

(** With a manifest whose content is not empty and no forced reset, the
    run reconnects: a listener, the completion, and nothing else. *)
Lemma reconnects_on_nonempty_manifest (s : State) (content : string) :
  guards_pass props s →
  readFile_detect sb = Resolved content → truthy content = true →
  forceResetup props = false →
  path (setup s) = Reconnected
  ∧ final (setup s) = mkState (previewUrl s) (currentStep s) None true false
  ∧ calls (setup s)
    = (FsReadFile "package.json" "utf8" :: said props msg_reconnecting
       ++ [OnServerReady OnReconnect])%list
  ∧ made is_mount (setup s) = false
  ∧ made (is_npm "install") (setup s) = false
  ∧ made (is_npm "run") (setup s) = false.
Proof.
  intros Hg Hread Htruthy Hforce.
  assert (Hrec' : reconnecting props sb = true).
  { unfold reconnecting. by rewrite Hread, Htruthy, Hforce. }
  destruct (setup_runs s Hg)
    as [Hrec H | e Hrec Hm H | e Hrec Hm Hsi' H | p' e Hrec Hm Hsi' Hie' H
        | p' code' Hrec Hm Hsi' Hie' Hcode' H | p' e Hrec Hm Hsi' Hie' Hss H
        | p' q Hrec Hm Hsi' Hie' Hss H];
    try congruence; scenario H.
  repeat split; try done.
  - rewrite Hcalls. unfold upto_detect. by rewrite Hrec.
  - tally; done.
  - tally; done.
  - tally; done.
Qed.

(** C5, amended.  With [forceResetup] set, the reset effect clears the
    preview address, the error and the progress, which lets the next call
    past the guards; that call never takes the reconnecting branch,
    whatever the sandbox holds: it always calls [mount], spawns the
    installation once the mount has succeeded, and spawns the run script
    once the installation has exited with code 0.  The run itself leaves
    the preview address cleared. *)
Theorem force_reset_reprovisions (s0 : State) (p : Term.Process) :
  forceResetup props = true →
  is_Some (instance props) →
  parentLoading props = false →
  previewUrl (resetEffect (forceResetup props) s0) = ""
  ∧ currentStep (resetEffect (forceResetup props) s0) = 0
  ∧ internalError (resetEffect (forceResetup props) s0) = None
  ∧ guards_pass props (resetEffect (forceResetup props) s0)
  ∧ path (setup (resetEffect (forceResetup props) s0)) ≠ NotStarted
  ∧ path (setup (resetEffect (forceResetup props) s0)) ≠ Reconnected
  ∧ made is_mount (setup (resetEffect (forceResetup props) s0)) = true
  ∧ (mount sb = Resolved tt →
     made (is_npm "install") (setup (resetEffect (forceResetup props) s0)) = true)
  ∧ (mount sb = Resolved tt → spawn_install sb = Resolved p →
     install_exit sb = Resolved 0%Z →
     made (is_npm "run") (setup (resetEffect (forceResetup props) s0)) = true)
  ∧ previewUrl (final (setup (resetEffect (forceResetup props) s0))) = "".
Proof.
  intros Hforce Hinst Hload. rewrite Hforce. cbn [resetEffect].
  set (s := mkState "" 0 None false false).
  assert (Hg : guards_pass props s) by done.
  assert (Hrec' : reconnecting props sb = false).
  { unfold reconnecting. destruct (readFile_detect sb); [| done].
    rewrite Hforce. apply andb_false_r. }
  do 4 (split; [done |]).
  destruct (setup_runs s Hg)
    as [Hrec H | e Hrec Hm H | e Hrec Hm Hsi' H | p' e Hrec Hm Hsi' Hie' H
        | p' code' Hrec Hm Hsi' Hie' Hcode' H | p' e Hrec Hm Hsi' Hie' Hss H
        | p' q Hrec Hm Hsi' Hie' Hss H];
    try congruence; scenario H; rewrite Hpath, Hfinal;
    (split; [done |]); (split; [done |]); (split; [tally; done |]);
    (split; [intros ?; first [congruence | tally; done] |]);
    (split; [| done]);
    intros ? Hspawn ?; first [congruence | tally; done].
Qed.

(** *** The start stage *)



End SetupFacts.

(** ** Calls of the setup entry point in flight *)

Section LiveFacts.

Import Preview.

Context {TemplateFolder FileSystemTree : Type}.
Variable transform : TemplateFolder → FileSystemTree.
Variable parse : string → option Json.

Abbreviation live' := (@live TemplateFolder FileSystemTree transform parse).
Abbreviation live_step' := (@live_step TemplateFolder FileSystemTree transform parse).
Abbreviation rest := (@setupRest TemplateFolder FileSystemTree transform parse).
Abbreviation enter' := (@setupEnter TemplateFolder FileSystemTree).

Lemma serverReady_ui (props : @Props TemplateFolder) l url (σ : @Store FileSystemTree) :
  ui (serverReady props l url σ).2
  = mkState url (currentStep (ui σ)) (internalError (ui σ))
            (isSetupComplete (ui σ)) (isSetupInProgress (ui σ)).
Proof.
  unfold serverReady. cbv [mbind M_bind setPreviewUrl modify].
  destruct l; by rewrite write_frame.
Qed.






End LiveFacts.

(** ** Concrete runs *)

Section SampleRuns.

Import Preview.

(** C1 fails on an empty manifest.  The sandbox root holds a readable
    [package.json] of zero length and no reset is forced, yet the run does
    not reconnect: it mounts, installs and starts. *)
Theorem empty_manifest_not_reconnected :
  readFile_detect (Sample.sandbox (Resolved "") (Resolved Sample.manifest) 0)
  = Resolved ""
  ∧ forceResetup (Sample.props false) = false
  ∧ guards_pass (Sample.props false) initial
  ∧ path (Sample.setup false (Resolved "") (Resolved Sample.manifest) 0 initial) = Started
  ∧ made is_mount (Sample.setup false (Resolved "") (Resolved Sample.manifest) 0 initial)
    = true
  ∧ made (is_npm "install")
         (Sample.setup false (Resolved "") (Resolved Sample.manifest) 0 initial) = true
  ∧ made (is_npm "run")
         (Sample.setup false (Resolved "") (Resolved Sample.manifest) 0 initial) = true.
Proof.
  split; [reflexivity |]. split; [reflexivity |].
  split; [by repeat split; try eexists |].
  by vm_compute.
Qed.

Lemma install_failure_is_soft_witness :
  made (is_npm "install") (Sample.setup false (Rejected NonError) (Resolved "") 1 initial)
  = true
  ∧ path (Sample.setup false (Rejected NonError) (Resolved "") 1 initial) = SoftFailed
  ∧ internalError (final (Sample.setup false (Rejected NonError) (Resolved "") 1 initial))
    = Some "❌ npm install failed with code 1. See terminal for details.".
Proof.
  split; [reflexivity |].
  destruct (install_failure_is_soft Sample.transform Sample.parse (Sample.props false)
              (Sample.sandbox (Rejected NonError) (Resolved "") 1) initial 10 1)
    as (Hpath & _ & _ & _ & _ & _ & _ & Herror & _).
  - repeat split; try reflexivity. by exists 1.
  - reflexivity.
  - reflexivity.
  - reflexivity.
  - lia.
  - split; [exact Hpath | exact Herror].
Defined.



(** Followed to their exits, the two runs mount, install and start
    twice. *)
Lemma overlapping_runs_provision_twice :
  let c := live Sample.transform Sample.parse
                [LvSetup (Sample.props false)
                         (Sample.sandbox (Rejected NonError) (Resolved Sample.manifest) 0);
                 LvReset true;
                 LvSetup (Sample.props true)
                         (Sample.sandbox (Rejected NonError) (Resolved Sample.manifest) 0);
                 LvExit 0; LvExit 0] in
  Hook.count is_mount (sofar c) = 2
  ∧ Hook.count (is_npm "install") (sofar c) = 2
  ∧ Hook.count (is_npm "run") (sofar c) = 2.
Proof. by vm_compute. Qed.

(** C5, as stated, fails: a forced run whose installation exits with code 1
    mounts and installs but never starts. *)
Lemma forced_run_stops_at_failed_install :
  ¬ (∀ (props : @Props Sample.Tree) (sb : Sandbox) (s : State),
       forceResetup props = true → guards_pass props s →
       made is_mount (setupContainer Sample.transform Sample.parse props sb s) = true
       ∧ made (is_npm "install") (setupContainer Sample.transform Sample.parse props sb s)
         = true
       ∧ made (is_npm "run") (setupContainer Sample.transform Sample.parse props sb s)
         = true).
Proof.
  intros H.
  destruct (H (Sample.props true)
              (Sample.sandbox (Resolved Sample.manifest) (Resolved Sample.manifest) 1)
              initial eq_refl) as (_ & _ & Hrun).
  - repeat split; try reflexivity. by exists 1.
  - vm_compute in Hrun. discriminate.
Qed.

Lemma force_reset_reprovisions_witness :
  forceResetup (Sample.props true) = true
  ∧ made is_mount
         (Sample.setup true (Resolved Sample.manifest) (Resolved Sample.manifest) 0
                       (resetEffect true (mkState "http://localhost:5173" 4 None true false)))
    = true.
Proof.
  split; [reflexivity |].
  refine (proj1 (proj2 (proj2 (proj2 (proj2 (proj2 (proj2
            (force_reset_reprovisions Sample.transform Sample.parse (Sample.props true)
               (Sample.sandbox (Resolved Sample.manifest) (Resolved Sample.manifest) 0)
               (mkState "http://localhost:5173" 4 None true false) 10 _ _ _)))))))).
  - reflexivity.
  - by exists 1.
  - reflexivity.
Defined.



End SampleRuns.

(** * Further properties *)

(** ** The runtime session hook, continued *)

Section HookMore.

Import Hook.

Lemma count_app {A} (kind : A → bool) (l1 l2 : list A) :
  count kind (l1 ++ l2) = count kind l1 + count kind l2.
Proof. induction l1 as [| x l1 IH]; [done |]. cbn. rewrite IH. lia. Qed.

Lemma count_insert {A} (kind : A → bool) (l : list A) i x y :
  l !! i = Some x →
  count kind (<[i := y]> l) + (if kind x then 1 else 0)
  = count kind l + (if kind y then 1 else 0).
Proof.
  revert i. induction l as [| z l IH]; intros [| i] Hl; try done.
  - injection Hl as ->. cbn. destruct (kind x), (kind y); lia.
  - specialize (IH i Hl). change (<[S i := y]> (z :: l)) with (z :: <[i := y]> l).
    cbn [count]. revert IH. destruct (kind x), (kind y), (kind z); lia.
Qed.

Lemma count_guarded_teardown kind w td tag :
  kind (Teardown w) = true → kind (ConsoleError tag) = false →
  count kind (guarded_teardown w td tag) = 1.
Proof. intros H1 H2. destruct td; cbn; by rewrite H1, ?H2. Qed.

(** Only a run of the effect starts a boot. *)
Lemma step_boots ev h h' cs :
  step ev h = Some (h', cs) → is_effect ev = false → count is_boot cs = 0.
Proof.
  intros Hstep Hev. destruct ev as [| i r td | i | i td | td]; try done; cbn in Hstep.
  - unfold bootSettled in Hstep.
    destruct (closures h !! i) as [c |]; [| done]. destruct (awaitingBoot c); [| done].
    destruct r; [destruct (negb (mounted c) || isTornDown h) |];
      injection Hstep as <- <-; try done. by destruct td.
  - unfold cleanup in Hstep. destruct (closures h !! i) as [c |]; [| done].
    destruct (containerRef c); [destruct (negb (isTornDown h)) |];
      by injection Hstep as <- <-.
  - unfold timerFired in Hstep. destruct (closures h !! i) as [c |]; [| done].
    destruct (timerPending c); [| done]. injection Hstep as <- <-.
    destruct (containerRef c); [by destruct td | done].
  - unfold destroy in Hstep.
    destruct (instance h); [destruct (negb (isTornDown h)) |];
      injection Hstep as <- <-; try done. by destruct td.
Qed.

(** *** One boot at a time *)

Lemma step_boots_in_flight ev h h' cs :
  step ev h = Some (h', cs) →
  boots_in_flight h = (if isInitializing h then 1 else 0) →
  boots_in_flight h' = (if isInitializing h' then 1 else 0).
Proof.
  unfold boots_in_flight. intros Hstep Hinv.
  destruct ev as [| i r td | i | i td | td]; cbn in Hstep.
  - unfold effect, initializeWebContainer in Hstep.
    destruct (isInitializing h) eqn:Hi; cbn in Hstep.
    + injection Hstep as <- <-. cbn. rewrite count_app, Hi. cbn. lia.
    + destruct (isTornDown h); injection Hstep as <- <-; cbn;
        rewrite count_app, ?Hi; cbn; lia.
  - unfold bootSettled in Hstep.
    destruct (closures h !! i) as [c |] eqn:Hc; [| done].
    destruct (awaitingBoot c) eqn:Ha; [| done].
    assert (Hins : ∀ c', awaitingBoot c' = false →
                         count awaitingBoot (<[i := c']> (closures h)) = 0).
    { intros c' Hc'. pose proof (count_insert awaitingBoot _ i c c' Hc) as Hcount.
      rewrite Ha, Hc' in Hcount. destruct (isInitializing h); lia. }
    destruct r; [destruct (negb (mounted c) || isTornDown h) |];
      injection Hstep as <- <-; cbn; try by apply Hins.
    destruct (mounted c); cbn; by apply Hins.
  - unfold cleanup in Hstep. destruct (closures h !! i) as [c |] eqn:Hc; [| done].
    assert (Hins : ∀ c', awaitingBoot c' = awaitingBoot c →
                         count awaitingBoot (<[i := c']> (closures h))
                         = count awaitingBoot (closures h)).
    { intros c' Hc'. pose proof (count_insert awaitingBoot _ i c c' Hc) as Hcount.
      rewrite Hc' in Hcount. lia. }
    destruct (containerRef c); [destruct (negb (isTornDown h)) |];
      injection Hstep as <- <-; cbn; by rewrite Hins.
  - unfold timerFired in Hstep. destruct (closures h !! i) as [c |] eqn:Hc; [| done].
    destruct (timerPending c); [| done]. injection Hstep as <- <-. cbn.
    pose proof (count_insert awaitingBoot _ i c
                  (mkClosure (mounted c) (containerRef c) (awaitingBoot c) false) Hc)
      as Hcount.
    cbn in Hcount. lia.
  - unfold destroy in Hstep.
    destruct (instance h); [destruct (negb (isTornDown h)) |];
      by injection Hstep as <- <-.
Qed.

Lemma run_boots_in_flight evs : ∀ h,
  boots_in_flight h = (if isInitializing h then 1 else 0) →
  boots_in_flight (run evs h).1 = (if isInitializing (run evs h).1 then 1 else 0).
Proof.
  induction evs as [| ev evs IH]; intros h Hinv; [done |]. cbn.
  destruct (step ev h) as [[h' cs] |] eqn:Hstep; [| by apply IH].
  specialize (IH h' (step_boots_in_flight _ _ _ _ Hstep Hinv)).
  by destruct (run evs h').
Qed.

(** X1.  Whatever happens to the hook, at most one boot is in flight, one
    is in flight exactly while [isInitializing] is set, and a run of the
    effect during that time calls no [boot]. *)
Theorem one_boot_in_flight (evs : list Event) :
(boots_in_flight (fst (run evs initial)) ≤ 1)%nat
  ∧ (boots_in_flight (fst (run evs initial)) = 1
     ↔ isInitializing (fst (run evs initial)) = true)
  ∧ (boots_in_flight (fst (run evs initial)) = 1 →
     snd (effect (fst (run evs initial))) = []).
Proof.
  pose proof (run_boots_in_flight evs initial eq_refl) as Hinv.
  set (h := (run evs initial).1) in *. change (fst (run evs initial)) with h.
  destruct (isInitializing h) eqn:Hi; rewrite Hinv; repeat split; try lia; try done.
  intros _. unfold effect, initializeWebContainer. by rewrite Hi.
Qed.

(** *** What the caller sees *)

Lemma step_hook_view ev h h' cs :
  step ev h = Some (h', cs) → hook_view_ok h → hook_view_ok h'.
Proof.
  unfold hook_view_ok. intros Hstep (Hurl & Hready & Hload).
  destruct ev as [| i r td | i | i td | td]; cbn in Hstep.
  - unfold effect, initializeWebContainer in Hstep.
    by destruct (isInitializing h || isTornDown h); injection Hstep as <- <-.
  - unfold bootSettled in Hstep.
    destruct (closures h !! i) as [c |]; [| done]. destruct (awaitingBoot c); [| done].
    destruct r; [destruct (negb (mounted c) || isTornDown h) | destruct (mounted c)];
      injection Hstep as <- <-; cbn; try done.
  - unfold cleanup in Hstep. destruct (closures h !! i) as [c |]; [| done].
    by destruct (containerRef c); [destruct (negb (isTornDown h)) |];
      injection Hstep as <- <-.
  - unfold timerFired in Hstep. destruct (closures h !! i) as [c |]; [| done].
    destruct (timerPending c); [| done]. by injection Hstep as <- <-.
  - unfold destroy in Hstep.
    destruct (instance h) eqn:Hi; [destruct (negb (isTornDown h)) |];
      injection Hstep as <- <-; cbn; rewrite ?Hi; try done.
    repeat split; try done. intros _. apply Hload. left. by eexists.
Qed.

(** X2.  Whatever happens to the hook, the values it hands to its caller
    stay consistent: [isReady] holds exactly while an instance is
    published, loading is over as soon as there is an instance or an
    error, and [serverUrl] is never anything but null. *)
Theorem hook_view_consistent (evs : list Event) :
  serverUrl (fst (run evs initial)) = None
  ∧ (isReady (fst (run evs initial)) = true ↔ is_Some (instance (fst (run evs initial))))
  ∧ (is_Some (instance (fst (run evs initial))) ∨ is_Some (error (fst (run evs initial))) →
     isLoading (fst (run evs initial)) = false).
Proof.
  assert (Hgen : ∀ evs h, hook_view_ok h → hook_view_ok (run evs h).1).
  { clear evs. induction evs as [| ev evs IH]; intros h Hok; [done |]. cbn.
    destruct (step ev h) as [[h' cs] |] eqn:Hstep; [| by apply IH].
    specialize (IH h' (step_hook_view _ _ _ _ Hstep Hok)). by destruct (run evs h'). }
  apply (Hgen evs initial). repeat split; try done.
  - by intros [? ?].
  - by intros [[? ?] | [? ?]].
Qed.

(** *** A failed boot *)

Lemma step_error_sticks ev h h' cs :
  step ev h = Some (h', cs) → is_Some (error h) → is_Some (error h').
Proof.
  intros Hstep Herr. destruct ev as [| i r td | i | i td | td]; cbn in Hstep.
  - unfold effect, initializeWebContainer in Hstep.
    by destruct (isInitializing h || isTornDown h); injection Hstep as <- <-.
  - unfold bootSettled in Hstep.
    destruct (closures h !! i) as [c |]; [| done]. destruct (awaitingBoot c); [| done].
    destruct r; [destruct (negb (mounted c) || isTornDown h) | destruct (mounted c)];
      injection Hstep as <- <-; cbn; done.
  - unfold cleanup in Hstep. destruct (closures h !! i) as [c |]; [| done].
    by destruct (containerRef c); [destruct (negb (isTornDown h)) |];
      injection Hstep as <- <-.
  - unfold timerFired in Hstep. destruct (closures h !! i) as [c |]; [| done].
    destruct (timerPending c); [| done]. by injection Hstep as <- <-.
  - unfold destroy in Hstep.
    by destruct (instance h); [destruct (negb (isTornDown h)) |];
      injection Hstep as <- <-.
Qed.

Lemma run_without_effect evs : ∀ h,
  forallb (λ ev, negb (is_effect ev)) evs = true →
  count is_boot (run evs h).2 = 0
  ∧ (is_Some (error h) → is_Some (error (run evs h).1)).
Proof.
  induction evs as [| ev evs IH]; intros h Hevs; [done |].
  cbn in Hevs. apply andb_true_iff in Hevs as [Hev Hevs]. apply negb_true_iff in Hev.
  cbn. destruct (step ev h) as [[h' cs] |] eqn:Hstep; [| by apply IH].
  destruct (IH h' Hevs) as [IH1 IH2]. destruct (run evs h') as [h'' cs'']. cbn in *.
  split.
  - rewrite count_app, IH1, (step_boots _ _ _ _ Hstep Hev). done.
  - intros Herr. apply IH2. by eapply step_error_sticks.
Qed.

(** X4.  When the boot fails in a closure that is still mounted, the
    message of the error (or 'Failed to initialize WebContainer' for a
    value that is no Error) is published, loading ends and nothing is
    published as instance; and from then on, as long as the effect is not
    run again, no boot is ever started and the error stays. *)
Theorem boot_failure_is_final (h : State) (i : nat) (c : Closure) (e : Thrown)
        (td : Settled unit) (evs : list Event) :
  closures h !! i = Some c → awaitingBoot c = true → mounted c = true →
  forallb (λ ev, negb (is_effect ev)) evs = true →
  ∃ h', bootSettled i (Rejected e) td h
        = Some (h', [ConsoleError "Failed to initialize WebContainer:"])
        ∧ error h' = Some (message_of e "Failed to initialize WebContainer")
        ∧ isLoading h' = false
        ∧ instance h' = instance h
        ∧ isInitializing h' = false
        ∧ count is_boot (snd (run evs h')) = 0
        ∧ is_Some (error (fst (run evs h'))).
Proof.
  intros Hc Ha Hm Hevs. unfold bootSettled. rewrite Hc, Ha, Hm.
  eexists. split; [reflexivity |].
  match goal with
  | |- context [run evs ?h'] => destruct (run_without_effect evs h' Hevs) as [H1 H2]
  end.
  repeat split; try done. apply H2. by eexists.
Qed.

Lemma boot_failure_is_final_witness :
  let h := (run [EvEffect] initial).1 in
  closures h !! 0 = Some (mkClosure true None true false)
  ∧ ∃ h', bootSettled 0 (Rejected (ErrorObj "SharedArrayBuffer is not defined")) (Resolved tt) h
          = Some (h', [ConsoleError "Failed to initialize WebContainer:"])
          ∧ error h' = Some "SharedArrayBuffer is not defined".
Proof.
  intros h. split; [reflexivity |].
  destruct (boot_failure_is_final h 0 (mkClosure true None true false)
              (ErrorObj "SharedArrayBuffer is not defined") (Resolved tt)
              [EvCleanup 0; EvDestroy (Resolved tt)]
              eq_refl eq_refl eq_refl eq_refl) as (h' & H1 & H2 & _).
  exists h'. split; [exact H1 | exact H2].
Defined.

(** *** One mount, one sandbox *)

Lemma step_accounted ev h h' cs torn failed :
  step ev h = Some (h', cs) → is_effect ev = false →
  accounted h torn failed →
  accounted h' (torn + count is_teardown cs) (failed + count is_boot_failure cs).
Proof.
  intros Hstep Hev (c & Hcl & Heq & Htimer & Hawait & Hsame & Hfail).
  destruct h as [su lo er ins rd torn_flag ini cls]. cbn in *. subst cls.
  destruct c as [m cr aw tp]. unfold owed in Heq. cbn in *.
  destruct ev as [| i r td | i | i td | td]; try done; cbn in Hstep;
    try (destruct i as [| i]; [| done]);
    unfold bootSettled, cleanup, timerFired, destroy in Hstep; cbn in Hstep;
    destruct aw, tp, torn_flag, ins as [wi |], cr as [wc |]; cbn in *;
    try (destruct r as [w | e]); try (destruct m); try (destruct td); cbn in *;
    try discriminate; try lia;
    try (by destruct (Htimer eq_refl) as (? & ? & [? ?]));
    try (by destruct (Hawait eq_refl) as (? & ? & ?));
    try (by specialize (Hsame eq_refl));
    injection Hstep as <- <-; (eexists; split; [reflexivity |]); unfold owed; cbn;
    (split; [lia |]); (split; [done |]); (split; [done |]); (split; [intros; congruence |]).
  all: try (destruct Hfail as [? | ?]; [left; lia | by right]).
  all: try (by right).
  all: try (left; lia).
Qed.

Lemma run_accounted evs : ∀ h torn failed,
  forallb (λ ev, negb (is_effect ev)) evs = true →
  accounted h torn failed →
  accounted (run evs h).1 (torn + count is_teardown (run evs h).2)
            (failed + count is_boot_failure (run evs h).2)
  ∧ count is_boot (run evs h).2 = 0.
Proof.
  induction evs as [| ev evs IH]; intros h torn failed Hevs Hacc.
  { cbn. by rewrite !Nat.add_0_r. }
  cbn in Hevs. apply andb_true_iff in Hevs as [Hev Hevs]. apply negb_true_iff in Hev.
  cbn. destruct (step ev h) as [[h' cs] |] eqn:Hstep; [| by apply IH].
  destruct (IH h' _ _ Hevs (step_accounted _ _ _ _ _ _ Hstep Hev Hacc)) as [IH1 IH2].
  destruct (run evs h') as [h'' cs'']. cbn in *.
  rewrite !count_app, IH2, (step_boots _ _ _ _ Hstep Hev).
  by rewrite !Nat.add_assoc.
Qed.

(** X3.  With the effect run once, whatever the order in which the boot
    settles, the component unmounts, the clean-up timer fires and
    [destroy] is called: [boot] is called exactly once, and the calls of
    [teardown] made, the sandbox still owed (a boot in flight, a clean-up
    timer pending, or an instance published and not let go of) and the
    failed boot add up to one.  So the sandbox is never torn down twice,
    and once nothing is owed a booted sandbox has been torn down. *)
Theorem single_mount_accounting (evs : list Event) :
  forallb (λ ev, negb (is_effect ev)) evs = true →
  count is_boot (snd (run (EvEffect :: evs) initial)) = 1
  ∧ count is_teardown (snd (run (EvEffect :: evs) initial))
    + owed (fst (run (EvEffect :: evs) initial))
    + count is_boot_failure (snd (run (EvEffect :: evs) initial)) = 1.
Proof.
  intros Hevs.
  assert (Hacc : accounted (effect initial).1 0 0).
  { exists (mkClosure true None true false).
    split; [reflexivity |]. split; [reflexivity |]. split; [done |].
    split; [done |]. split; [done |]. by left. }
  destruct (run_accounted evs _ _ _ Hevs Hacc) as [(c & _ & Heq & _) Hboot].
  change (run (EvEffect :: evs) initial)
    with (let '(h'', cs') := run evs (effect initial).1 in (h'', (Boot :: cs')%list)).
  destruct (run evs (effect initial).1) as [h cs]. cbn in *. split; [by rewrite Hboot | done].
Qed.

Lemma single_mount_accounting_witness :
  count is_teardown
        (snd (run [EvEffect; EvCleanup 0; EvBootSettled 0 (Resolved 5) (Resolved tt);
                   EvDestroy (Resolved tt); EvTimerFired 0 (Resolved tt)] initial))
  + owed (fst (run [EvEffect; EvCleanup 0; EvBootSettled 0 (Resolved 5) (Resolved tt);
                    EvDestroy (Resolved tt); EvTimerFired 0 (Resolved tt)] initial))
  + count is_boot_failure
          (snd (run [EvEffect; EvCleanup 0; EvBootSettled 0 (Resolved 5) (Resolved tt);
                     EvDestroy (Resolved tt); EvTimerFired 0 (Resolved tt)] initial))
  = 1.
Proof.
  refine (proj2 (single_mount_accounting
                   [EvCleanup 0; EvBootSettled 0 (Resolved 5) (Resolved tt);
                    EvDestroy (Resolved tt); EvTimerFired 0 (Resolved tt)] _)).
  reflexivity.
Defined.

(** *** The directory of a written file *)

Lemma split_slash_segments s seg : seg ∈ split_slash s → has_slash seg = false.
Proof.
  revert seg. induction s as [| c s IH]; intros seg Hin; cbn in Hin.
  - apply elem_of_cons in Hin as [-> | Hin]; [done | by apply elem_of_nil in Hin].
  - destruct (Ascii.eqb c "/") eqn:Hc.
    + apply elem_of_cons in Hin as [-> | Hin]; [done | by apply IH].
    + pose proof (split_slash_nonempty s) as Hne.
      destruct (split_slash s) as [| seg' segs]; [done |].
      apply elem_of_cons in Hin as [-> | Hin].
      * cbn. rewrite Hc. apply IH, elem_of_cons. by left.
      * apply IH, elem_of_cons. by right.
Qed.

Lemma join_slash_falsy ini :
  truthy (join_slash ini) = false → ini = [] ∨ ini = [EmptyString].
Proof.
  destruct ini as [| p [| q ini]]; [by left | |].
  - cbn. destruct p; [by right | done].
  - change (join_slash (p :: q :: ini)) with (p +:+ "/" +:+ join_slash (q :: ini)).
    by destruct p.
Qed.

(** X5.  On a live session [writeFileSync] calls [mkdir] exactly for the
    paths that have a directory part: a bare name, or a name right under
    the root, is written without any [mkdir]; otherwise the directory is the
    path up to its last slash.  The name that remains holds no slash. *)
Theorem mkdir_only_for_nested_paths (mk wr : Settled unit) (path content : string)
        (h : State) (w : WebContainer) :
  instance h = Some w → isTornDown h = false →
  ∃ name,
    has_slash name = false
    ∧ ((path = name ∨ path = "/" +:+ name)
       ∧ count is_mkdir (snd (writeFileSync mk wr path content h)) = 0
       ∨ path = folderPath path +:+ "/" +:+ name
         ∧ truthy (folderPath path) = true
         ∧ count is_mkdir (snd (writeFileSync mk wr path content h)) = 1).
Proof.
  intros Hi Ht.
  pose proof (split_slash_nonempty path) as Hne.
  destruct (exists_last Hne) as (ini & name & Heq).
  exists name. split.
  { apply (split_slash_segments path). rewrite Heq. apply elem_of_app. right.
    apply elem_of_cons. by left. }
  unfold writeFileSync. rewrite Hi, Ht.
  destruct (truthy (folderPath path)) eqn:Hf.
  - right. destruct (folderPath_decompose path Hf) as (name' & Hsplit & Hpath).
    assert (name' = name) as ->.
    { rewrite Heq in Hsplit. unfold slice_init in Hsplit. rewrite removelast_last in Hsplit.
      by apply app_inj_tail in Hsplit as [_ ->]. }
    split; [done |]. split; [done |].
    by destruct mk, wr.
  - left. split; [| by destruct wr].
    unfold folderPath, slice_init in Hf. rewrite Heq, removelast_last in Hf.
    rewrite <- (join_split_slash path), Heq.
    destruct (join_slash_falsy ini Hf) as [-> | ->]; [by left | by right].
Qed.

Lemma mkdir_only_for_nested_paths_witness :
  let h := (run [EvEffect; EvBootSettled 0 (Resolved 5) (Resolved tt)] initial).1 in
  instance h = Some 5
  ∧ ∃ name,
      has_slash name = false
      ∧ (("/package.json" = name ∨ "/package.json" = "/" +:+ name)
         ∧ count is_mkdir
                 (snd (writeFileSync (Resolved tt) (Resolved tt) "/package.json" "{}" h)) = 0
         ∨ "/package.json" = folderPath "/package.json" +:+ "/" +:+ name
           ∧ truthy (folderPath "/package.json") = true
           ∧ count is_mkdir
                   (snd (writeFileSync (Resolved tt) (Resolved tt) "/package.json" "{}" h))
             = 1).
Proof.
  intros h. split; [reflexivity |].
  apply (mkdir_only_for_nested_paths (Resolved tt) (Resolved tt) "/package.json" "{}" h 5);
    reflexivity.
Defined.

End HookMore.

(** ** The terminal view and its shell, continued *)

Section TermMore.

Import Term.

Abbreviation count := Hook.count.

Lemma trace_run_cons ev evs st st' cs :
  step ev st = Some (st', cs) →
  trace (ev :: evs) st = (cs ++ trace evs st')%list ∧ run (ev :: evs) st = run evs st'.
Proof. intros Hstep. cbn. by rewrite Hstep. Qed.

(** *** One surface at a time *)

Lemma step_surfaces ev st st' cs :
  step ev st = Some (st', cs) →
  count is_open cs + surfaces st = count is_dispose cs + surfaces st'.
Proof.
  unfold surfaces. intros Hstep.
  destruct ev as [wc dom t | t mc mr | t r | t p code | t kl]; cbn in Hstep.
  - unfold init in Hstep. destruct (term st); [done |].
    destruct (negb wc || negb dom); [done |]. by injection Hstep as <- <-.
  - unfold startShell in Hstep. case_bool_decide; [| done].
    destruct (isShellStarting st); injection Hstep as <- <-; cbn; lia.
  - unfold spawnSettled, spawn_failed in Hstep. case_bool_decide; [| done].
    destruct r as [[p |] | e]; injection Hstep as <- <-; cbn; try lia;
      destruct (term st); cbn; lia.
  - unfold processExited in Hstep. case_bool_decide; [| done].
    injection Hstep as <- <-. cbn. destruct (term st); cbn; lia.
  - case_bool_decide as Ht; [| done]. injection Hstep as <- <-. rewrite Ht. cbn.
    rewrite count_app. cbn.
    by destruct (shellProcessRef st), kl.
Qed.

(** X6.  Along any sequence of events the surface is opened and disposed
    in turn: the surfaces opened so far are the ones disposed, plus the one
    [term.current] holds if it holds one.  The view never has two live
    surfaces, and never disposes what it has not opened. *)
Theorem surfaces_open_and_dispose_in_turn (evs : list Event) :
  count is_open (trace evs initial)
  = count is_dispose (trace evs initial) + surfaces (run evs initial).
Proof.
  assert (Hgen : ∀ evs st,
             count is_open (trace evs st) + surfaces st
             = count is_dispose (trace evs st) + surfaces (run evs st)).
  { clear evs. induction evs as [| ev evs IH]; intros st; [done |].
    destruct (step ev st) as [[st' cs] |] eqn:Hstep.
    - destruct (trace_run_cons ev evs _ _ _ Hstep) as [-> ->].
      rewrite !count_app. pose proof (step_surfaces _ _ _ _ Hstep). specialize (IH st').
      lia.
    - cbn. rewrite Hstep. apply IH. }
  specialize (Hgen evs initial). cbn in Hgen. lia.
Qed.

(** *** Spawning the shell *)

Lemma safe_dim_positive measured dflt : (0 < dflt)%Z → (0 < safe_dim measured dflt)%Z.
Proof.
  intros Hd. unfold safe_dim. destruct measured as [n |]; [| done].
  by destruct (Z.ltb_spec 0 n).
Qed.

Lemma safe_dim_measured measured dflt v :
  measured = Some v → (0 < v)%Z → safe_dim measured dflt = v.
Proof. intros -> Hv. unfold safe_dim. by destruct (Z.ltb_spec 0 v); [| lia]. Qed.

Lemma safe_dim_fallback measured dflt :
  measured = None ∨ (∃ v, measured = Some v ∧ (v ≤ 0)%Z) → safe_dim measured dflt = dflt.
Proof.
  intros [-> | (v & -> & Hv)]; [done |]. unfold safe_dim.
  by destruct (Z.ltb_spec 0 v); [lia |].
Qed.

Lemma count_zero_not_in {A} (kind : A → bool) (l : list A) x :
  count kind l = 0 → kind x = true → x ∉ l.
Proof.
  induction l as [| y l IH]; [intros _ _ ?%elem_of_nil; done |].
  cbn. intros Hc Hx [-> | Hl]%elem_of_cons; [rewrite Hx in Hc; lia |].
  apply IH; [destruct (kind y); lia | done | done].
Qed.

Lemma step_spawn_dims ev st st' cs c r :
  step ev st = Some (st', cs) → SpawnShell c r ∈ cs →
  ∃ t mc mr, ev = EvStartShell t mc mr ∧ c = safe_dim mc 80 ∧ r = safe_dim mr 24.
Proof.
  intros Hstep Hin.
  assert (Hno : ∀ l : list Call, count is_spawn l = 0 → SpawnShell c r ∉ l).
  { intros l Hl. by eapply count_zero_not_in. }
  destruct ev as [wc dom t | t mc mr | t r' | t p code | t kl]; cbn in Hstep.
  - unfold init in Hstep. destruct (term st); [done |].
    destruct (negb wc || negb dom); [done |]. injection Hstep as <- <-.
    by apply Hno in Hin.
  - unfold startShell in Hstep. case_bool_decide; [| done].
    destruct (isShellStarting st); injection Hstep as <- <-.
    + by apply elem_of_nil in Hin.
    + repeat (apply elem_of_cons in Hin as [Hin | Hin]; [try discriminate |]).
      * injection Hin as -> ->. by exists t, mc, mr.
      * by apply elem_of_nil in Hin.
  - unfold spawnSettled, spawn_failed in Hstep. case_bool_decide; [| done].
    destruct r' as [[p |] | e]; injection Hstep as <- <-;
      try (by apply elem_of_nil in Hin);
      apply Hno in Hin; try done; by destruct (term st).
  - unfold processExited in Hstep. case_bool_decide; [| done].
    injection Hstep as <- <-. apply Hno in Hin; [done |]. by destruct (term st).
  - case_bool_decide; [| done]. injection Hstep as <- <-.
    apply Hno in Hin; [done |]. rewrite count_app. by destruct (shellProcessRef st), kl.
Qed.

(** X7.  The shell is never spawned with a degenerate terminal size.
    Every [spawn] along any sequence of events is made by a start of the
    shell and carries strictly positive columns and rows: the columns and
    rows measured at that start where they are positive, and 80 columns,
    24 rows where the measure is zero, negative or NaN. *)
Theorem shell_spawned_with_positive_size (evs : list Event) (st : State) (c r : Z) :
  SpawnShell c r ∈ trace evs st →
  (0 < c)%Z ∧ (0 < r)%Z
  ∧ ∃ t mc mr,
      EvStartShell t mc mr ∈ evs
      ∧ (∀ v, mc = Some v → (0 < v)%Z → c = v)
      ∧ (mc = None ∨ (∃ v, mc = Some v ∧ (v ≤ 0)%Z) → c = 80%Z)
      ∧ (∀ v, mr = Some v → (0 < v)%Z → r = v)
      ∧ (mr = None ∨ (∃ v, mr = Some v ∧ (v ≤ 0)%Z) → r = 24%Z).
Proof.
  intros Hin.
  assert (Hfrom : ∃ t mc mr, EvStartShell t mc mr ∈ evs
                             ∧ c = safe_dim mc 80 ∧ r = safe_dim mr 24).
  { revert st Hin. induction evs as [| ev evs IH]; intros st Hin.
    { by apply elem_of_nil in Hin. }
    assert (Hrest : ∀ st', SpawnShell c r ∈ trace evs st' →
                           ∃ t mc mr, EvStartShell t mc mr ∈ ev :: evs
                                      ∧ c = safe_dim mc 80 ∧ r = safe_dim mr 24).
    { intros st' Hin'. destruct (IH st' Hin') as (t & mc & mr & Hev & Hc & Hr).
      exists t, mc, mr. split; [| done]. apply elem_of_cons. by right. }
    cbn in Hin. destruct (step ev st) as [[st' cs] |] eqn:Hstep; [| by eapply Hrest].
    apply elem_of_app in Hin as [Hin | Hin]; [| by eapply Hrest].
    destruct (step_spawn_dims _ _ _ _ _ _ Hstep Hin) as (t & mc & mr & -> & Hc & Hr).
    exists t, mc, mr. split; [| done]. apply elem_of_cons. by left. }
  destruct Hfrom as (t & mc & mr & Hev & -> & ->).
  split; [by apply safe_dim_positive |]. split; [by apply safe_dim_positive |].
  exists t, mc, mr. split; [done |].
  split; [intros v Hv Hpos; by apply safe_dim_measured |].
  split; [by apply safe_dim_fallback |].
  split; [intros v Hv Hpos; by apply safe_dim_measured |].
  by apply safe_dim_fallback.
Qed.

Lemma shell_spawned_with_positive_size_witness :
  SpawnShell 120 24
    ∈ trace [EvInit true true 1; EvStartShell 1 (Some 120%Z) (Some 0%Z)] initial
  ∧ ∃ t mc mr,
      EvStartShell t mc mr ∈ [EvInit true true 1; EvStartShell 1 (Some 120%Z) (Some 0%Z)]
      ∧ (∀ v, mc = Some v → (0 < v)%Z → 120%Z = v)
      ∧ (mr = None ∨ (∃ v, mr = Some v ∧ (v ≤ 0)%Z) → 24%Z = 24%Z).
Proof.
  assert (Hin : SpawnShell 120 24
                  ∈ trace [EvInit true true 1; EvStartShell 1 (Some 120%Z) (Some 0%Z)]
                          initial).
  { do 3 (apply elem_of_cons; right). apply elem_of_cons. by left. }
  split; [exact Hin |].
  destruct (shell_spawned_with_positive_size _ _ _ _ Hin)
    as (_ & _ & t & mc & mr & Hev & Hc & _ & _ & Hr).
  exists t, mc, mr. split; [exact Hev |]. split; [exact Hc | exact Hr].
Defined.

Lemma remove_xterm_length t l : (length (remove_xterm t l) ≤ length l)%nat.
Proof.
  unfold remove_xterm. induction l as [| x l IH]; [done |].
  rewrite filter_cons. case_decide; cbn; lia.
Qed.

Lemma remove_xterm_shrinks t l : t ∈ l → (length (remove_xterm t l) < length l)%nat.
Proof.
  unfold remove_xterm. induction l as [| x l IH]; [by intros ?%elem_of_nil |].
  intros [-> | Hin]%elem_of_cons; rewrite filter_cons; case_decide; cbn.
  - done.
  - pose proof (remove_xterm_length x l). unfold remove_xterm in *. lia.
  - specialize (IH Hin). lia.
  - specialize (IH Hin). lia.
Qed.

Lemma step_spawn_budget ev st st' cs :
  step ev st = Some (st', cs) →
  (count is_spawn cs + length (initTimers st') ≤ count is_open cs + length (initTimers st))%nat.
Proof.
  intros Hstep.
  destruct ev as [wc dom t | t mc mr | t r | t p code | t kl]; cbn in Hstep.
  - unfold init in Hstep. destruct (term st); [done |].
    destruct (negb wc || negb dom); [done |]. injection Hstep as <- <-. cbn.
    rewrite length_app. cbn. lia.
  - unfold startShell in Hstep. case_bool_decide as Hin; [| done].
    pose proof (remove_xterm_shrinks _ _ Hin).
    destruct (isShellStarting st); injection Hstep as <- <-; cbn; lia.
  - unfold spawnSettled, spawn_failed in Hstep. case_bool_decide; [| done].
    destruct r as [[p |] | e]; injection Hstep as <- <-; cbn; try lia;
      destruct (term st); cbn; lia.
  - unfold processExited in Hstep. case_bool_decide; [| done].
    injection Hstep as <- <-. cbn. destruct (term st); cbn; lia.
  - case_bool_decide; [| done]. injection Hstep as <- <-. cbn.
    pose proof (remove_xterm_length t (initTimers st)).
    rewrite !count_app. cbn. destruct (shellProcessRef st), kl; cbn; lia.
Qed.

(** X8.  A shell is spawned at most once for each surface that was opened,
    whatever becomes of the spawn: a failed start is never tried again.
    (The surfaces whose start timer is still pending have not spawned
    yet.) *)
Theorem shell_spawned_once_per_surface (evs : list Event) :
  (count is_spawn (trace evs initial) + length (initTimers (run evs initial))
   ≤ count is_open (trace evs initial))%nat.
Proof.
  assert (Hgen : ∀ evs st,
             (count is_spawn (trace evs st) + length (initTimers (run evs st))
              ≤ count is_open (trace evs st) + length (initTimers st))%nat).
  { clear evs. induction evs as [| ev evs IH]; intros st; [cbn; lia |].
    destruct (step ev st) as [[st' cs] |] eqn:Hstep.
    - destruct (trace_run_cons ev evs _ _ _ Hstep) as [-> ->].
      rewrite !count_app. pose proof (step_spawn_budget _ _ _ _ Hstep).
      specialize (IH st'). lia.
    - cbn. rewrite Hstep. apply IH. }
  specialize (Hgen evs initial). cbn in Hgen. lia.
Qed.

(** *** After the shell has exited *)

Lemma step_listeners_awaited ev st st' cs :
  step ev st = Some (st', cs) →
  listeners st ⊆ exitHandlers st → listeners st' ⊆ exitHandlers st'.
Proof.
  intros Hstep Hsub.
  destruct ev as [wc dom t | t mc mr | t r | t p code | t kl]; cbn in Hstep.
  - unfold init in Hstep. destruct (term st); [done |].
    destruct (negb wc || negb dom); [done |]. by injection Hstep as <- <-.
  - unfold startShell in Hstep. case_bool_decide; [| done].
    by destruct (isShellStarting st); injection Hstep as <- <-.
  - unfold spawnSettled, spawn_failed in Hstep. case_bool_decide; [| done].
    destruct r as [[p |] | e]; injection Hstep as <- <-; cbn; try done.
    intros x [Hx | Hx]%elem_of_app; apply elem_of_app; [left; by apply Hsub | by right].
  - unfold processExited in Hstep. case_bool_decide; [| done].
    injection Hstep as <- <-. cbn. unfold remove_pair.
    intros x [Hne Hx]%list_elem_of_filter. apply list_elem_of_filter. split; [done |].
    by apply Hsub.
  - case_bool_decide; [| done]. injection Hstep as <- <-. cbn. unfold on_other_xterm.
    intros x [_ Hx]%list_elem_of_filter. by apply Hsub.
Qed.

(** X9.  A listener never outlives its shell: along any sequence of events
    every live [onData]/[onResize] listener belongs to a shell whose exit
    is still awaited, so once the exit callback of a shell has run no
    resize of its surface is forwarded to it any more. *)
Theorem no_listener_after_exit (evs : list Event) (t : Xterm) (p : Process)
        (rs : Settled unit) (size : Size) :
  (t, p) ∉ exitHandlers (run evs initial) →
  ((t, p) ∉ listeners (run evs initial))
  ∧ ∀ c r, ProcResize p c r ∉ resizeEvent t rs size (run evs initial).
Proof.
  assert (Hgen : ∀ evs st, listeners st ⊆ exitHandlers st →
                           listeners (run evs st) ⊆ exitHandlers (run evs st)).
  { clear evs. induction evs as [| ev evs IH]; intros st Hsub; [done |]. cbn.
    destruct (step ev st) as [[st' cs] |] eqn:Hstep; [| by apply IH].
    apply IH. by eapply step_listeners_awaited. }
  specialize (Hgen evs initial (λ x Hx, Hx)).
  set (st := run evs initial) in *. intros Hexit.
  assert (Hlis : (t, p) ∉ listeners st) by (intros Hl; by apply Hexit, Hgen).
  split; [done |]. intros c r Hin. unfold resizeEvent in Hin.
  apply list_elem_of_In, in_flat_map in Hin as ([t' p'] & Hl & Hp).
  apply list_elem_of_In in Hp. apply list_elem_of_In, list_elem_of_filter in Hl as [Ht Hl].
  cbn in *. subst t'.
  destruct (onResize_only_own _ _ _ _ _ _ _ Hp) as (-> & _). done.
Qed.

Lemma no_listener_after_exit_witness :
  let evs := [EvInit true true 1; EvStartShell 1 (Some 80%Z) (Some 24%Z);
              EvSpawnSettled 1 (Resolved (Some 10)); EvProcessExited 1 10 0] in
  ((1, 10) ∉ exitHandlers (run evs initial))
  ∧ ((1, 10) ∉ listeners (run evs initial)).
Proof.
  intros evs.
  assert (Hex : (1, 10) ∉ exitHandlers (run evs initial)) by (by intros ?%elem_of_nil).
  split; [exact Hex |].
  exact (proj1 (no_listener_after_exit evs 1 10 (Resolved tt) (mkSize 100 30) Hex)).
Defined.

End TermMore.

(** ** The setup run, continued *)

Section SetupMore.

Import Preview.

Context {TemplateFolder FileSystemTree : Type}.
Variable transform : TemplateFolder → FileSystemTree.
Variable parse : string → option Json.

Abbreviation run_setup := (setupContainer transform parse).

Set Warnings "-clear-no-such-hyp".

Ltac cases_of props sb s Hg :=
  destruct (setup_runs transform parse props sb s Hg)
    as [Hrec H | e Hrec Hm H | e Hrec Hm Hsi H | p e Hrec Hm Hsi Hie H
        | p code Hrec Hm Hsi Hie Hcode H | p e Hrec Hm Hsi Hie Hss H
        | p q Hrec Hm Hsi Hie Hss H];
  unfold fails, ends, settled in H; destruct H as (Hfinal & Hcalls & Hpath & Hrej).

(** *** Which way a run ends *)

(** X10.  The exit of a run that got past the guards is decided by five
    answers of the sandbox and nothing else: it reconnects exactly when
    the detection says so; otherwise it fails fatally exactly when the
    mount, the spawn of the installation, its exit promise, or (after exit
    code 0) the spawn of the run script is rejected; it fails softly
    exactly on a non-zero exit code; and it ends started exactly when all
    of them succeed.  Neither the removal of the lock file nor the reading
    of the manifest at the start stage can change the exit. *)
Theorem exit_decided_by_answers (props : @Props TemplateFolder) (sb : Sandbox) (s : State) :
  guards_pass props s →
  (path (run_setup props sb s) = Reconnected ↔ reconnecting props sb = true)
  ∧ (path (run_setup props sb s) = SoftFailed
     ↔ reconnecting props sb = false ∧ mount sb = Resolved tt
       ∧ ∃ p code, spawn_install sb = Resolved p ∧ install_exit sb = Resolved code
                   ∧ code ≠ 0%Z)
  ∧ (path (run_setup props sb s) = Started
     ↔ reconnecting props sb = false ∧ mount sb = Resolved tt
       ∧ ∃ p q, spawn_install sb = Resolved p ∧ install_exit sb = Resolved 0%Z
                ∧ spawn_start sb = Resolved q)
  ∧ (path (run_setup props sb s) = Fatal
     ↔ reconnecting props sb = false
       ∧ ((∃ e, mount sb = Rejected e)
          ∨ mount sb = Resolved tt
            ∧ ((∃ e, spawn_install sb = Rejected e)
               ∨ ∃ p, spawn_install sb = Resolved p
                      ∧ ((∃ e, install_exit sb = Rejected e)
                         ∨ install_exit sb = Resolved 0%Z
                           ∧ ∃ e, spawn_start sb = Rejected e))))
  ∧ path (run_setup props sb s) ≠ NotStarted.
Proof.
  intros Hg. cases_of props sb s Hg; rewrite Hpath; repeat split; try done;
    try (intros; naive_solver congruence).
Qed.

(** *** What the user is shown of a failure *)

Lemma truthy_app_l a b : truthy a = true → truthy (a +:+ b) = true.
Proof. by destruct a. Qed.

Lemma message_or_truthy e dflt : truthy dflt = true → truthy (message_or e dflt) = true.
Proof. intros Hd. destruct e as [m |]; cbn; [| done]. by destruct (truthy m) eqn:Hm. Qed.





(** *** Running again *)

(** X12.  Once a call has got past the guards, whichever way it ended
    (failures included), any further call of the setup entry point is
    stopped at the guard, with any props and any sandbox: it makes no call
    and changes nothing.  Only the reset effect opens the guard again. *)
Theorem completed_setup_is_not_repeated (props props' : @Props TemplateFolder)
        (sb sb' : Sandbox) (s : State) :
  path (run_setup props sb s) ≠ NotStarted →
  run_setup props' sb' (final (run_setup props sb s))
  = mkOutcome (final (run_setup props sb s)) [] NotStarted false
  ∧ (is_Some (instance props') → parentLoading props' = false →
     guards_pass props' (resetEffect true (final (run_setup props sb s)))).
Proof.
  intros Hpath'. split; [| by intros ? ?].
  destruct (guards_pass_dec props s) as [Hg | Hg];
    [| by rewrite (setup_guarded transform parse props sb s Hg) in Hpath'].
  apply setup_guarded. intros (_ & Hc & _).
  revert Hc. cases_of props sb s Hg; by rewrite Hfinal.
Qed.

(** *** The stages in their order *)

Abbreviation quiet := (fun c : @Call FileSystemTree => negb (is_narrative c)).

Lemma quiet_said (props : @Props TemplateFolder) data :
  List.filter quiet (said props data) = [].
Proof.
  destruct (said_cases (FileSystemTree := FileSystemTree) props data) as [-> | [t ->]]; done.
Qed.

Lemma quiet_scriptCalls (props : @Props TemplateFolder) (sb : Sandbox) :
  List.filter quiet (@startCommandCalls TemplateFolder FileSystemTree parse props sb)
  = [FsReadFile "package.json" "utf8"].
Proof.
  destruct (@script_cases TemplateFolder FileSystemTree parse props sb) as [_ [-> | [_ ->]]]; [done |].
  cbn. by rewrite quiet_said.
Qed.

Ltac bare :=
  unfold skeleton;
  repeat match goal with
         | H : calls _ = _ |- _ => rewrite H; clear H
         end;
  unfold upto_start, upto_exit, upto_install, upto_mount, upto_detect;
  repeat match goal with
         | H : reconnecting _ _ = _ |- _ => rewrite H
         end;
  repeat match goal with
         | |- context [match rm_lock ?sb with _ => _ end] => destruct (rm_lock sb)
         end;
  repeat first [ rewrite List.filter_app
               | rewrite quiet_said
               | rewrite quiet_scriptCalls
               | progress cbn [List.filter app negb is_narrative] ].

(** X13.  The calls of a run, its narrative left aside, come in one fixed
    order and each at most once: a reconnecting run reads the manifest and
    attaches its listener; any other run makes an initial stretch of read,
    mount, lock-file removal, spawn of the installation, pipe, read, spawn
    of the run script, listener, pipe, and gets at least as far as the
    mount. *)
Theorem stages_in_order (props : @Props TemplateFolder) (sb : Sandbox) (s : State) :
  guards_pass props s →
  skeleton (run_setup props sb s)
  = [FsReadFile "package.json" "utf8"; OnServerReady OnReconnect]
  ∨ ∃ p q,
      skeleton (run_setup props sb s)
        `prefix_of` pipeline (transform (templateData props)) p
                             (@startCommand TemplateFolder FileSystemTree parse props sb) q
      ∧ [FsReadFile "package.json" "utf8"; Mount (transform (templateData props))]
          `prefix_of` skeleton (run_setup props sb s).
Proof.
  intros Hg. cases_of props sb s Hg; [left; bare; done | right ..].
  - exists 0, 0. bare; split; by eexists.
  - exists 0, 0. bare; split; by eexists.
  - exists p, 0. bare; split; by eexists.
  - exists p, 0. bare; split; by eexists.
  - exists p, 0. bare; split; by eexists.
  - exists p, q. bare; split; by eexists.
Qed.

(** *** The narrative is best effort *)

Lemma startCommand_only_reads (props props' : @Props TemplateFolder) (sb sb' : Sandbox) :
  readFile_start sb = readFile_start sb' →
  @startCommand TemplateFolder FileSystemTree parse props sb
  = @startCommand TemplateFolder FileSystemTree parse props' sb'.
Proof.
  unfold startCommand, detectStartCommand, pickScript.
  cbv [try_ mbind M_bind mret M_ret await throw]. intros <-.
  destruct (readFile_start sb) as [raw |]; [| by rewrite !write_frame].
  destruct (parse raw) as [pkg |]; [| by rewrite !write_frame].
  destruct (get_prop pkg "scripts") as [[sc |] |]; [| done | by rewrite !write_frame].
  destruct (truthy_json sc); [| done].
  destruct (get_prop sc "dev") as [dev |]; [| by rewrite !write_frame].
  by destruct (truthy_opt dev).
Qed.

Ltac cases_of' props sb s Hg :=
  destruct (setup_runs transform parse props sb s Hg)
    as [Hrec' H' | e' Hrec' Hm' H' | e' Hrec' Hm' Hsi' H' | p' e' Hrec' Hm' Hsi' Hie' H'
        | p' code' Hrec' Hm' Hsi' Hie' Hcode' H' | p' e' Hrec' Hm' Hsi' Hie' Hss' H'
        | p' q' Hrec' Hm' Hsi' Hie' Hss' H'];
  unfold fails, ends, settled in H'; destruct H' as (Hfinal' & Hcalls' & Hpath' & Hrej').

(** X14.  Whether there is a terminal to write to, and whether the lock
    file could be removed, makes no difference to a run beyond its
    narrative: the exit, the state left behind and the calls made to the
    sandbox are the same. *)
Theorem narrative_is_best_effort (props : @Props TemplateFolder) (sb : Sandbox) (s : State)
        (view : option Term.State) (r : Settled unit) :
  path (run_setup (with_terminal view props) (with_rm_lock r sb) s)
  = path (run_setup props sb s)
  ∧ final (run_setup (with_terminal view props) (with_rm_lock r sb) s)
    = final (run_setup props sb s)
  ∧ skeleton (run_setup (with_terminal view props) (with_rm_lock r sb) s)
    = skeleton (run_setup props sb s).
Proof.
  destruct (guards_pass_dec props s) as [Hg | Hg].
  - assert (Hg' : guards_pass (with_terminal view props) s) by exact Hg.
    pose proof (startCommand_only_reads (with_terminal view props) props
                  (with_rm_lock r sb) sb eq_refl) as Hscript.
    cases_of props sb s Hg;
      cases_of' (with_terminal view props) (with_rm_lock r sb) s Hg';
      unfold reconnecting in Hrec, Hrec'; cbn in *; try congruence;
      rewrite Hpath, Hpath', Hfinal, Hfinal';
      (split; [done |]); (split; [congruence |]).
    all: unfold skeleton; rewrite Hcalls, Hcalls';
      unfold upto_start, upto_exit, upto_install, upto_mount, upto_detect, reconnecting;
      cbn [readFile_detect forceResetup templateData with_terminal with_rm_lock rm_lock];
      rewrite ?Hrec; try destruct r; try destruct (rm_lock sb);
      repeat first [ rewrite List.filter_app
                   | rewrite quiet_said
                   | rewrite quiet_scriptCalls
                   | progress cbn [List.filter app negb is_narrative] ];
      rewrite ?Hscript; congruence.
  - assert (Hg' : ¬ guards_pass (with_terminal view props) s) by exact Hg.
    by rewrite (setup_guarded transform parse _ _ s Hg),
         (setup_guarded transform parse _ _ s Hg').
Qed.

(** *** The component over its life *)

Abbreviation react' := (@react TemplateFolder FileSystemTree transform parse).
Abbreviation after' := (@after TemplateFolder FileSystemTree transform parse).

Lemma step_component_ok ev s : component_ok s → component_ok (react' ev s).
Proof.
  intros (Hstep & Hprog & Herr). unfold totalSteps in Hstep.
  destruct ev as [force | props sb | props l url]; cbn [react].
  - destruct force; [| done]. unfold component_ok, totalSteps. cbn.
    split; [lia |]. split; [done |]. by intros m.
  - destruct (guards_pass_dec props s) as [Hg | Hg];
      [| by rewrite (setup_guarded transform parse props sb s Hg)].
    cases_of props sb s Hg; rewrite Hfinal; unfold component_ok, totalSteps; cbn;
      (split; [lia |]); (split; [done |]); intros m [= <-];
      (split; [| done]);
      first [ by apply message_or_truthy | by apply truthy_app_l ].
  - rewrite serverReady_ui. done.
Qed.

(** X15.  Whatever forced resets, setup calls and [server-ready] events
    the component goes through, with whatever props and answers of the
    sandbox, between them the progress counter never exceeds the total of
    4 steps, no setup run has left the in-progress flag set, and an
    internal error, when there is one, is a non-empty message on a
    completed setup. *)
Theorem component_stays_consistent (evs : list Event) :
  component_ok (after' evs initial).
Proof.
  assert (H0 : component_ok initial).
  { unfold component_ok, totalSteps. cbn. split; [lia |]. split; [done |]. by intros m. }
  revert H0. generalize initial. unfold after.
  induction evs as [| ev evs IH]; intros s Hs; [done |].
  cbn [fold_left]. apply IH. by apply step_component_ok.
Qed.

Lemma step_address ev s :
  previewUrl (react' ev s)
  = match ev with
    | EvReset true => EmptyString
    | EvServerReady _ _ url => url
    | _ => previewUrl s
    end.
Proof.
  destruct ev as [[] | props sb | props l url]; cbn [react]; [done | done | |].
  - destruct (guards_pass_dec props s) as [Hg | Hg];
      [| by rewrite (setup_guarded transform parse props sb s Hg)].
    cases_of props sb s Hg; by rewrite Hfinal.
  - by rewrite serverReady_ui.
Qed.

(** X16.  The address shown in the preview is set by [server-ready] events
    and cleared by a forced reset, by nothing else: no setup run, however
    it ends, changes it.  After any sequence of events it is the url of
    the last [server-ready] event unless a forced reset came later. *)
Theorem address_follows_server_ready (evs : list Event) (s : State) :
  previewUrl (after' evs s) = address_after evs (previewUrl s).
Proof.
  revert s. unfold after, address_after.
  induction evs as [| ev evs IH]; intros s; [done |].
  cbn [fold_left]. rewrite IH. f_equal. rewrite step_address.
  by destruct ev as [[] | |].
Qed.

End SetupMore.

(** ** Concrete runs, continued *)

Section SampleRunsMore.

Import Preview.

Lemma exit_decided_by_answers_witness :
  path (Sample.setup false (Rejected NonError) (Resolved "") 1 initial) ≠ NotStarted.
Proof.
  refine (proj2 (proj2 (proj2 (proj2
            (exit_decided_by_answers Sample.transform Sample.parse (Sample.props false)
               (Sample.sandbox (Rejected NonError) (Resolved "") 1) initial _))))).
  repeat split; try reflexivity. by exists 1.
Defined.


Lemma completed_setup_is_not_repeated_witness :
  setupContainer Sample.transform Sample.parse (Sample.props true)
                 (Sample.sandbox (Resolved "") (Resolved Sample.manifest) 0)
                 (final (setupContainer Sample.transform Sample.parse (Sample.props false)
                           (Sample.sandbox (Rejected NonError) (Resolved "") 1) initial))
  = mkOutcome (final (setupContainer Sample.transform Sample.parse (Sample.props false)
                        (Sample.sandbox (Rejected NonError) (Resolved "") 1) initial))
              [] NotStarted false.
Proof.
  refine (proj1 (completed_setup_is_not_repeated Sample.transform Sample.parse
                   (Sample.props false) (Sample.props true)
                   (Sample.sandbox (Rejected NonError) (Resolved "") 1)
                   (Sample.sandbox (Resolved "") (Resolved Sample.manifest) 0) initial _)).
  vm_compute. discriminate.
Defined.

Lemma stages_in_order_witness :
  guards_pass (Sample.props false) initial
  ∧ (skeleton (Sample.setup false (Rejected NonError) (Resolved Sample.manifest) 0 initial)
     = [FsReadFile "package.json" "utf8"; OnServerReady OnReconnect]
     ∨ ∃ p q,
         skeleton (Sample.setup false (Rejected NonError) (Resolved Sample.manifest) 0 initial)
           `prefix_of` pipeline (Sample.transform Sample.tree) p
                                (@startCommand Sample.Tree Sample.Tree Sample.parse (Sample.props false)
                                   (Sample.sandbox (Rejected NonError)
                                      (Resolved Sample.manifest) 0)) q
         ∧ [FsReadFile "package.json" "utf8"; Mount (Sample.transform Sample.tree)]
             `prefix_of`
             skeleton (Sample.setup false (Rejected NonError) (Resolved Sample.manifest) 0
                         initial)).
Proof.
  assert (Hg : guards_pass (Sample.props false) initial).
  { repeat split; try reflexivity. by exists 1. }
  split; [exact Hg |].
  exact (stages_in_order Sample.transform Sample.parse (Sample.props false)
           (Sample.sandbox (Rejected NonError) (Resolved Sample.manifest) 0) initial Hg).
Defined.

End SampleRunsMore.
